(** * Session lifecycle of the GPU agent (cmd/agent/app)

    A shallow embedding of [session.go] and of the two session endpoints of
    [endpoints.go].  The Go struct [Session] becomes a record, the code that
    runs under the mutex of [session.closed] becomes functions on that record,
    and the goroutines started by [Run], [addConnection] and the callers of
    [Connect] become a labelled transition function on a [World]: one label
    per statement at which a goroutine can be observed. *)

From stdpp Require Import base option list gmap strings.
From Stdlib Require Import ZArith Lia.

Local Open Scope Z_scope.

(** ** Data *)

Module restapi.
(** [restapi.ConnectionData]: the three fields [session.go] reads. *)
Record ConnectionData := mkConnectionData {
  Id : string;
  Pid : string;
  ProcessName : string
}.
End restapi.

(** Errors a caller of [Connect] can see.  [Wrapped msg e] is
    [errors.Newf(msg).Wrap(e)]. *)
Inductive error :=
| ErrClosed
| StartError (reason : string)
| AttachError (reason : string)
| Wrapped (msg : string) (cause : error).

(** [*Connection] is an external type; [newConnection] stores its three
    arguments and [connection.Id] is the identifier of the embedded
    [ConnectionData]. *)
Record Connection := mkConnection {
  ConnectionData : restapi.ConnectionData;
  connJuicePath : string;
  connPciBus : string
}.

Definition newConnection (d : restapi.ConnectionData) (juicePath pciBus : string)
  : Connection := mkConnection d juicePath pciBus.

Definition connId (c : Connection) : string := restapi.Id (ConnectionData c).

(** Modelled from the spec: [gpu.SelectedGpuSet] is not in src.  It is an
    opaque reservation handle with [Release], [GetGpus] and
    [GetPciBusString]; the model counts the calls of [Release]. *)
Record SelectedGpuSet := mkGpuSet {
  pciBusString : string;
  gpuList : list string;
  releases : nat
}.

Definition Release (g : SelectedGpuSet) : SelectedGpuSet :=
  mkGpuSet (pciBusString g) (gpuList g) (S (releases g)).

Definition GetPciBusString (g : SelectedGpuSet) : string := pciBusString g.

(** Program points of the goroutine spawned at line 182 of [addConnection]
    (the connection watcher).  [exitCodeCh] is private to the connection and
    its watcher, and [Connection.Start] promises exactly one value on it, so
    the receive of line 183 yields [ok = true] and the panic of line 185 is
    not a program point. *)
Inductive cwpc :=
| CWRecv                    (* 183: exitCode, ok := <-exitCodeCh *)
| CWSend (exitCode : Z)     (* 190: session.connectionsChanged <- struct{}{} *)
| CWEmit (exitCode : Z)     (* 192: eventListener.ConnectionClosed(...) *)
| CWDone.                   (* 194: return nil *)

(** Modelled from the spec: [task.TaskManager] is not in src.  It owns a
    cancellable scope ([Cancel] is idempotent and only sets the stop signal),
    [GoFn] registers a unit of work, and [Wait] returns once every unit has
    returned.  The units of a session's manager are its connection watchers
    (the work [Connection.Start] spawns ends by handing the exit code to the
    watcher). *)
Record TaskManager := mkTaskManager {
  cancelled : bool;
  tasks : list (Connection * cwpc)
}.

Definition tmCancel (tm : TaskManager) : TaskManager := mkTaskManager true (tasks tm).

Definition GoFn (t : Connection * cwpc) (tm : TaskManager) : TaskManager :=
  mkTaskManager (cancelled tm) (tasks tm ++ [t]).

Definition task_done (t : Connection * cwpc) : bool :=
  match t.2 with CWDone => true | _ => false end.

(** [Wait] can return exactly when this holds. *)
Definition all_done (tm : TaskManager) : bool := forallb task_done (tasks tm).

(** An unbuffered channel of [struct{}]: all that matters is whether it has
    been closed. *)
Record chan := mkChan { chanClosed : bool }.

(** The struct [Session].  [closed] is the value guarded by the
    [ConcurrentVariable]; who holds its mutex is part of the [World] below.
    The event listener is the world's log. *)
Record Session := mkSession {
  Id : string;
  Version : string;
  Persistent : bool;
  juicePath : string;
  gpus : SelectedGpuSet;
  closed : bool;
  connections : gmap string Connection;
  connectionsChanged : chan;
  sessionClosing : chan;
  taskManager : TaskManager
}.

Definition newSession (id version : string) (persistent : bool) (juicePath : string)
    (gpus : SelectedGpuSet) : Session :=
  {| Id := id; Version := version; Persistent := persistent;
     juicePath := juicePath; gpus := gpus;
     closed := false; connections := ∅;
     connectionsChanged := mkChan false; sessionClosing := mkChan false;
     taskManager := mkTaskManager false [] |}.

Definition set_closed (b : bool) (s : Session) : Session :=
  mkSession (Id s) (Version s) (Persistent s) (juicePath s) (gpus s) b
    (connections s) (connectionsChanged s) (sessionClosing s) (taskManager s).

Definition set_connections (m : gmap string Connection) (s : Session) : Session :=
  mkSession (Id s) (Version s) (Persistent s) (juicePath s) (gpus s) (closed s)
    m (connectionsChanged s) (sessionClosing s) (taskManager s).

Definition set_taskManager (tm : TaskManager) (s : Session) : Session :=
  mkSession (Id s) (Version s) (Persistent s) (juicePath s) (gpus s) (closed s)
    (connections s) (connectionsChanged s) (sessionClosing s) tm.

Definition set_gpus (g : SelectedGpuSet) (s : Session) : Session :=
  mkSession (Id s) (Version s) (Persistent s) (juicePath s) g (closed s)
    (connections s) (connectionsChanged s) (sessionClosing s) (taskManager s).

Definition close_connectionsChanged (s : Session) : Session :=
  mkSession (Id s) (Version s) (Persistent s) (juicePath s) (gpus s) (closed s)
    (connections s) (mkChan true) (sessionClosing s) (taskManager s).

Definition close_sessionClosing (s : Session) : Session :=
  mkSession (Id s) (Version s) (Persistent s) (juicePath s) (gpus s) (closed s)
    (connections s) (connectionsChanged s) (mkChan true) (taskManager s).

(** ** The code that runs under the mutex of [session.closed] *)

(** [Cancel] (lines 142-148).  The callback of [utilities.With] receives the
    flag by value: it can request cancellation of the task manager, it cannot
    write the flag. *)
Definition Cancel (s : Session) : Session :=
  if negb (closed s) then set_taskManager (tmCancel (taskManager s)) s else s.

(** Where a call of [Connect] is suspended while it holds the mutex. *)
Inductive park :=
| AtSend (c : Connection)      (* 198: session.connectionsChanged <- struct{}{} *)
| AtCreated (c : Connection)   (* 200: eventListener.ConnectionCreated(...) *)
| AtAttach (c : Connection).   (* 164: connection.Connect(c) *)

Inductive addResult :=
| AddFailed (err : error)      (* 179: return nil, err *)
| AddBlocked (c : Connection). (* reached the send of line 198 *)

(** [addConnection] (lines 171-203) up to its first blocking statement.
    [start] is the result of [connection.Start]: the transport is external.
    On success the watcher is spawned under the session's task manager
    (line 182) and the connection is stored (line 197); the function then
    blocks on the unbuffered send of line 198.  The spawn and the store are
    taken as one step: a watcher that gets its exit code and runs lines
    183-192 between them is not among the runs of [step] below. *)
Definition addConnection (s : Session) (d : restapi.ConnectionData)
    (start : option error) : addResult * Session :=
  let connection := newConnection d (juicePath s) (GetPciBusString (gpus s)) in
  match start with
  | Some err => (AddFailed err, s)
  | None =>
      let s1 := set_taskManager (GoFn (connection, CWRecv) (taskManager s)) s in
      let s2 := set_connections (<[connId connection := connection]> (connections s1)) s1 in
      (AddBlocked connection, s2)
  end.

Inductive connectResult :=
| Returned (err : option error)
| Suspended (p : park).

Definition connect_failed_msg (s : Session) (d : restapi.ConnectionData) : string :=
  "session " +:+ Id s +:+ " connection " +:+ restapi.Id d +:+ " failed to connect".

(** [Connect] (lines 150-169): the callback of [utilities.WithReturn], run
    with the mutex held, up to the point where it returns or suspends. *)
Definition Connect (s : Session) (d : restapi.ConnectionData)
    (start : option error) : connectResult * Session :=
  if negb (closed s) then
    match connections s !! restapi.Id d with
    | Some connection => (Suspended (AtAttach connection), s)
    | None =>
        match addConnection s d start with
        | (AddFailed err, s') => (Returned (Some (Wrapped (connect_failed_msg s d) err)), s')
        | (AddBlocked connection, s') => (Suspended (AtSend connection), s')
        end
    end
  else (Returned (Some ErrClosed), s).

(** ** Goroutines *)

(** Program points of the closing watcher (lines 88-110). *)
Inductive wpc :=
| WSelect         (* 89: select on group.Ctx().Done() / taskManager.Ctx().Done() *)
| WCancel         (* 91: session.Cancel() *)
| WSet            (* 98: session.closed.Set(true) *)
| WWait           (* 100: err := session.taskManager.Wait() *)
| WCloseChanged   (* 102: close(session.connectionsChanged) *)
| WCloseClosing   (* 103: close(session.sessionClosing) *)
| WRelease        (* 105: session.gpus.Release() *)
| WEmit           (* 107: session.eventListener.SessionClosed(session.Id) *)
| WDone.          (* 109: return err *)

(** Program points of the idle ticker (lines 113-136). *)
Inductive tpc :=
| TSelect         (* 119: select *)
| TCancel         (* 124: session.Cancel() *)
| TChanged        (* 127: if session.connections.Empty() ... *)
| TDone.          (* 135: return nil *)

(** What an outside observer can see, in the order it happens. *)
Inductive event :=
| EvClosedSet
| EvWaitReturned
| EvReleased
| EvSessionClosed (session : string)
| EvConnectionCreated (session : string) (d : restapi.ConnectionData)
| EvConnectionClosed (session : string) (d : restapi.ConnectionData) (exitCode : Z).

(** The session together with everything that runs on it.  [holder] is the
    call of [Connect] that holds the mutex of [session.closed] across a
    blocking statement; every other critical section ([Cancel], [Set]) has no
    blocking statement and is one step.  [timer] is the next expiry of the
    ticker's [time.Ticker] ([None]: stopped, or no ticker at all); [now] is
    the clock, in nanoseconds. *)
Record World := mkWorld {
  sess : Session;
  parentDone : bool;
  holder : option park;
  watcher : wpc;
  ticker : option tpc;
  timer : option Z;
  now : Z;
  panicked : bool;
  log : list event
}.

Definition upd_sess (f : Session → Session) (w : World) : World :=
  mkWorld (f (sess w)) (parentDone w) (holder w) (watcher w) (ticker w) (timer w)
    (now w) (panicked w) (log w).

Definition set_parentDone (w : World) : World :=
  mkWorld (sess w) true (holder w) (watcher w) (ticker w) (timer w)
    (now w) (panicked w) (log w).

Definition set_holder (h : option park) (w : World) : World :=
  mkWorld (sess w) (parentDone w) h (watcher w) (ticker w) (timer w)
    (now w) (panicked w) (log w).

Definition set_watcher (p : wpc) (w : World) : World :=
  mkWorld (sess w) (parentDone w) (holder w) p (ticker w) (timer w)
    (now w) (panicked w) (log w).

Definition set_ticker (p : tpc) (w : World) : World :=
  mkWorld (sess w) (parentDone w) (holder w) (watcher w) (Some p) (timer w)
    (now w) (panicked w) (log w).

Definition set_timer (t : option Z) (w : World) : World :=
  mkWorld (sess w) (parentDone w) (holder w) (watcher w) (ticker w) t
    (now w) (panicked w) (log w).

Definition set_now (t : Z) (w : World) : World :=
  mkWorld (sess w) (parentDone w) (holder w) (watcher w) (ticker w) (timer w)
    t (panicked w) (log w).

Definition set_panicked (w : World) : World :=
  mkWorld (sess w) (parentDone w) (holder w) (watcher w) (ticker w) (timer w)
    (now w) true (log w).

Definition emit (e : event) (w : World) : World :=
  mkWorld (sess w) (parentDone w) (holder w) (watcher w) (ticker w) (timer w)
    (now w) (panicked w) (log w ++ [e]).

Definition set_task (i : nat) (t : Connection * cwpc) (s : Session) : Session :=
  set_taskManager (mkTaskManager (cancelled (taskManager s))
                                 (<[i := t]> (tasks (taskManager s)))) s.

(** [30 * time.Second], a [time.Duration] in nanoseconds. *)
Definition period : Z := 30 * 1000000000.

(** Modelled from the spec: [utilities.ConcurrentMap] is not in src.  It is
    a thread-safe map whose [Get], [Set], [Delete], [Len] and [Empty] are
    each atomic: a [gmap], read and written one operation per step.  This is
    [Empty]. *)
Definition Empty (m : gmap string Connection) : bool := bool_decide (size m = 0%nat).

(** [Run] (lines 87-140): the closing watcher always, the idle ticker with
    its 30-second [time.Ticker] only when the session is not persistent. *)
Definition Run (s : Session) (t0 : Z) : World :=
  {| sess := s; parentDone := false; holder := None; watcher := WSelect;
     ticker := if negb (Persistent s) then Some TSelect else None;
     timer := if negb (Persistent s) then Some (t0 + period) else None;
     now := t0; panicked := false; log := [] |}.

(** Modelled from the spec: [utilities.ConcurrentVariable] is not in src.
    [With], [WithReturn] and [Set] give exclusive access to the guarded
    value, one accessor at a time; a goroutine that asks for it while
    [locked] holds waits. *)
Definition locked (w : World) : bool :=
  match holder w with Some _ => true | None => false end.

(** One statement of the closing watcher after its select. *)
Definition watcher_step (w : World) : option World :=
  match watcher w with
  | WSelect | WDone => None
  | WCancel =>
      if locked w then None else Some (set_watcher WSet (upd_sess Cancel w))
  | WSet =>
      if locked w then None
      else Some (emit EvClosedSet (set_watcher WWait (upd_sess (set_closed true) w)))
  | WWait =>
      if all_done (taskManager (sess w))
      then Some (emit EvWaitReturned (set_watcher WCloseChanged w))
      else None
  | WCloseChanged => Some (set_watcher WCloseClosing (upd_sess close_connectionsChanged w))
  | WCloseClosing => Some (set_watcher WRelease (upd_sess close_sessionClosing w))
  | WRelease =>
      Some (emit EvReleased
              (set_watcher WEmit (upd_sess (λ s, set_gpus (Release (gpus s)) s) w)))
  | WEmit => Some (emit (EvSessionClosed (Id (sess w))) (set_watcher WDone w))
  end.

(** Lines 127-131: what the ticker does with a connections-changed signal. *)
Definition on_connectionsChanged (w : World) : World :=
  if Empty (connections (sess w))
  then set_timer (Some (now w + period)) w   (* ticker.Reset(30 * time.Second) *)
  else set_timer None w.                     (* ticker.Stop() *)

(** The ticker receives on [connectionsChanged] (line 126). *)
Definition ticker_receives (w : World) : option World :=
  match ticker w with
  | Some TSelect => Some (set_ticker TChanged w)
  | _ => None
  end.

Inductive label :=
| LTime (d : Z)                                       (* the clock advances *)
| LParentCancel                                       (* group.Ctx() is cancelled *)
| LCancel                                             (* someone calls session.Cancel() *)
| LConnect (d : restapi.ConnectionData) (start : option error)
| LSendConnect                                        (* 198 meets 126 *)
| LCreated                                            (* 200 *)
| LAttach (r : option error)                          (* 164 returns r *)
| LExit (i : nat) (exitCode : Z)                      (* 183-189 of task i *)
| LSendWatcher (i : nat)                              (* 190 meets 126 *)
| LClosedEvent (i : nat)                              (* 192-194 of task i *)
| LPanicConnect                                       (* 198 on a closed channel *)
| LPanicWatcher (i : nat)                             (* 190 on a closed channel *)
| LWatcherParent                                      (* 90 *)
| LWatcherOwn                                         (* 94 *)
| LWatcher                                            (* 91, 98-107 *)
| LTickerClosing                                      (* 120 *)
| LTick                                               (* 123 *)
| LTickerCancel                                       (* 124 *)
| LRecvClosed                                         (* 126 on a closed channel *)
| LTickerChanged.                                     (* 127-131 *)

(** The transition function.  [None]: the statement is not enabled (its
    goroutine is elsewhere, or it blocks).  After a panic nothing runs. *)
Definition step (l : label) (w : World) : option World :=
  if panicked w then None else
  match l with
  | LTime d => if bool_decide (0 ≤ d) then Some (set_now (now w + d) w) else None
  | LParentCancel => Some (set_parentDone w)
  | LCancel => if locked w then None else Some (upd_sess Cancel w)
  | LConnect d start =>
      if locked w then None else
      match Connect (sess w) d start with
      | (Returned _, s') => Some (upd_sess (λ _, s') w)
      | (Suspended p, s') => Some (set_holder (Some p) (upd_sess (λ _, s') w))
      end
  | LSendConnect =>
      match holder w with
      | Some (AtSend c) =>
          if chanClosed (connectionsChanged (sess w)) then None
          else set_holder (Some (AtCreated c)) <$> ticker_receives w
      | _ => None
      end
  | LCreated =>
      match holder w with
      | Some (AtCreated c) =>
          Some (emit (EvConnectionCreated (Id (sess w)) (ConnectionData c))
                  (set_holder (Some (AtAttach c)) w))
      | _ => None
      end
  | LAttach _ =>
      match holder w with
      | Some (AtAttach _) => Some (set_holder None w)
      | _ => None
      end
  | LExit i exitCode =>
      match tasks (taskManager (sess w)) !! i with
      | Some (c, CWRecv) =>
          Some (upd_sess (λ s, set_task i (c, CWSend exitCode)
                                 (set_connections (delete (connId c) (connections s)) s)) w)
      | _ => None
      end
  | LSendWatcher i =>
      match tasks (taskManager (sess w)) !! i with
      | Some (c, CWSend exitCode) =>
          if chanClosed (connectionsChanged (sess w)) then None
          else upd_sess (set_task i (c, CWEmit exitCode)) <$> ticker_receives w
      | _ => None
      end
  | LClosedEvent i =>
      match tasks (taskManager (sess w)) !! i with
      | Some (c, CWEmit exitCode) =>
          Some (emit (EvConnectionClosed (Id (sess w)) (ConnectionData c) exitCode)
                  (upd_sess (set_task i (c, CWDone)) w))
      | _ => None
      end
  | LPanicConnect =>
      match holder w with
      | Some (AtSend _) =>
          if chanClosed (connectionsChanged (sess w)) then Some (set_panicked w) else None
      | _ => None
      end
  | LPanicWatcher i =>
      match tasks (taskManager (sess w)) !! i with
      | Some (_, CWSend _) =>
          if chanClosed (connectionsChanged (sess w)) then Some (set_panicked w) else None
      | _ => None
      end
  | LWatcherParent =>
      match watcher w with
      | WSelect => if parentDone w then Some (set_watcher WCancel w) else None
      | _ => None
      end
  | LWatcherOwn =>
      match watcher w with
      | WSelect =>
          if cancelled (taskManager (sess w)) then Some (set_watcher WSet w) else None
      | _ => None
      end
  | LWatcher => watcher_step w
  | LTickerClosing =>
      match ticker w with
      | Some TSelect =>
          if chanClosed (sessionClosing (sess w))
          then Some (set_timer None (set_ticker TDone w))   (* deferred ticker.Stop() *)
          else None
      | _ => None
      end
  | LTick =>
      match ticker w, timer w with
      | Some TSelect, Some due =>
          if bool_decide (due ≤ now w)
          then Some (set_timer (Some (due + period)) (set_ticker TCancel w))
          else None
      | _, _ => None
      end
  | LTickerCancel =>
      match ticker w with
      | Some TCancel =>
          if locked w then None else Some (set_ticker TSelect (upd_sess Cancel w))
      | _ => None
      end
  | LRecvClosed =>
      if chanClosed (connectionsChanged (sess w)) then ticker_receives w else None
  | LTickerChanged =>
      match ticker w with
      | Some TChanged => Some (set_ticker TSelect (on_connectionsChanged w))
      | _ => None
      end
  end.

Fixpoint run (ls : list label) (w : World) : option World :=
  match ls with
  | [] => Some w
  | l :: ls' => match step l w with Some w' => run ls' w' | None => None end
  end.

Definition reachable (w0 w : World) : Prop := ∃ ls, run ls w0 = Some w.

(** ** The session endpoints ([endpoints.go]) *)

(** What a handler does to the outside, in order. *)
Inductive effect :=
| RespondEmpty (status : Z)
| RespondWithString (status : Z) (body : string)
| LogError
| ReleaseSelectedGpus            (* 75: selectedGpus.Release() on the local, empty set *)
| Hijack                         (* 174: hijacker.Hijack() *)
| ConnClose                      (* 189: conn.Close() *)
| Signal (session : string).     (* 88: createdSession.Signal() *)

Definition StatusOK : Z := 200.
Definition StatusBadRequest : Z := 400.
Definition StatusInternalServerError : Z := 500.

Definition wrapInt (z : Z) : Z := (z + 2 ^ 63) `mod` 2 ^ 64 - 2 ^ 63.

Record Agent := mkAgent {
  sessions : gmap string Session;
  maxSessions : Z
}.

(** [ConcurrentMap.Len]. *)
Definition Len (m : gmap string Session) : Z := Z.of_nat (size m).

(** Line 66: [agent.sessions.Len()+1 >= agent.maxSessions]. *)
Definition sessions_full (agent : Agent) : bool :=
  wrapInt (Len (sessions agent) + 1) >=? maxSessions agent.

Section RequestSession.
(** [agent.startSession] is not in src: it is a parameter of the handler.
    It returns the agent after the call and either the identifier of the
    created session or an error message. *)
Context {RequestSession : Type}.
Variable startSession : Agent → RequestSession → Agent * (string + string).

(** The handler of [requestSessionEp] (lines 59-92).  [body] is the result
    of [ReadRequestBody], [respondFails] whether writing the final response
    fails. *)
Definition requestSessionEp (agent : Agent) (body : RequestSession + string)
    (respondFails : bool) : Agent * list effect :=
  match body with
  | inr msg =>
      (agent, [RespondWithString StatusInternalServerError msg; LogError; ReleaseSelectedGpus])
  | inl requestSession =>
      if sessions_full agent then (agent, [LogError; ReleaseSelectedGpus])
      else
        match startSession agent requestSession with
        | (agent', inr msg) =>
            (agent', [RespondWithString StatusInternalServerError msg; LogError])
        | (agent', inl id) =>
            (agent', RespondWithString StatusOK id
                       :: (if respondFails then [Signal id; LogError] else []))
        end
  end.

(** Whether the handler gets as far as line 79. *)
Definition passes_limit (agent : Agent) (body : RequestSession + string) : bool :=
  match body with
  | inr _ => false
  | inl _ => negb (sessions_full agent)
  end.

(** The handler in its two halves.  Several handlers run at once, one per
    request, with nothing to order them between the check of line 66 and
    the call of line 79: another handler can run in between. *)

(** Lines 60-77: read the body and check the limit.  The request goes on
    to line 79, or the handler has returned. *)
Definition requestSession_check (agent : Agent) (body : RequestSession + string)
  : option RequestSession * list effect :=
  match body with
  | inr msg =>
      (None, [RespondWithString StatusInternalServerError msg; LogError; ReleaseSelectedGpus])
  | inl requestSession =>
      if sessions_full agent then (None, [LogError; ReleaseSelectedGpus])
      else (Some requestSession, [])
  end.

(** Lines 79-91: start the session and answer. *)
Definition requestSession_start (agent : Agent) (requestSession : RequestSession)
    (respondFails : bool) : Agent * list effect :=
  match startSession agent requestSession with
  | (agent', inr msg) =>
      (agent', [RespondWithString StatusInternalServerError msg; LogError])
  | (agent', inl id) =>
      (agent', RespondWithString StatusOK id
                 :: (if respondFails then [Signal id; LogError] else []))
  end.








End RequestSession.



(** How the handler of [connectSessionEp] ends. *)
Inductive outcome :=
| HandlerReturned
| NilDereference.   (* runtime panic: invalid memory address or nil pointer dereference *)

(** [session.Connect(conn)] on the pointer [getSession] returned.  [Connect]
    reads [session.closed] (line 153 of session.go) before anything else that
    touches the receiver: on a nil receiver that read panics.  On a session,
    [result] is what the call returns. *)
Definition ConnectOn (session : option Session) (result : option error)
  : option error + outcome :=
  match session with
  | None => inr NilDereference
  | Some _ => inl result
  end.

(** The handler of [connectSessionEp] (lines 153-193).  [got] is the result
    of [agent.getSession(id)] (a nil session is [None]), [cast] the error of
    [utilities.Cast[http.Hijacker](w)], [hijack] the error of
    [hijacker.Hijack()], [result] what [Connect] returns on a session. *)
Definition connectSessionEp (got : option Session * option string)
    (cast hijack : option string) (result : option error) : list effect * outcome :=
  let (session, err) := got in
  let after_lookup :=
    match err with
    | None => match session with None => [RespondEmpty StatusBadRequest] | Some _ => [] end
    | Some msg => [RespondWithString StatusInternalServerError msg]
    end in
  match err with
  | Some _ => (after_lookup ++ [LogError], HandlerReturned)
  | None =>
      match cast with
      | Some msg =>
          (after_lookup ++ [RespondWithString StatusInternalServerError msg; LogError],
           HandlerReturned)
      | None =>
          match hijack with
          | Some msg =>
              (after_lookup ++ [Hijack; RespondWithString StatusInternalServerError msg; LogError],
               HandlerReturned)
          | None =>
              match ConnectOn session result with
              | inr panic => (after_lookup ++ [Hijack], panic)
              | inl None => (after_lookup ++ [Hijack], HandlerReturned)
              | inl (Some _) => (after_lookup ++ [Hijack; ConnClose; LogError], HandlerReturned)
              end
          end
      end
  end.

(** ** Vocabulary of the invariants *)

(** How far the closing watcher has got. *)
Definition phase (p : wpc) : nat :=
  match p with
  | WSelect => 0 | WCancel => 1 | WSet => 2 | WWait => 3 | WCloseChanged => 4
  | WCloseClosing => 5 | WRelease => 6 | WEmit => 7 | WDone => 8
  end.

(** The four observable events of teardown. *)
Definition is_teardown (e : event) : bool :=
  match e with
  | EvClosedSet | EvWaitReturned | EvReleased | EvSessionClosed _ => true
  | _ => false
  end.

Definition teardown_order (id : string) : list event :=
  [EvClosedSet; EvWaitReturned; EvReleased; EvSessionClosed id].

(** How many of them the watcher has produced when it stands at [p]. *)
Definition teardown_seen (p : wpc) : nat :=
  match p with
  | WSelect | WCancel | WSet => 0
  | WWait => 1
  | WCloseChanged | WCloseClosing | WRelease => 2
  | WEmit => 3
  | WDone => 4
  end.

Definition is_release (e : event) : bool :=
  match e with EvReleased => true | _ => false end.

Definition is_connection_closed (e : event) : bool :=
  match e with EvConnectionClosed _ _ _ => true | _ => false end.

Definition is_connection_created (e : event) : bool :=
  match e with EvConnectionCreated _ _ => true | _ => false end.

(** The world right after [newSession] and [Run]. *)
Definition started (id version : string) (persistent : bool) (juicePath : string)
    (g : SelectedGpuSet) (t0 : Z) : World :=
  Run (newSession id version persistent juicePath g) t0.

Record wf (id : string) (persistent : bool) (r0 : nat) (w : World) : Prop := mkWf {
  wf_id : Id (sess w) = id;
  wf_persistent : Persistent (sess w) = persistent;
  wf_ticker : persistent = match ticker w with None => true | Some _ => false end;
  wf_alive : panicked w = false;
  wf_lock : locked w = true → closed (sess w) = false;
  wf_flag : closed (sess w) = bool_decide (3 ≤ phase (watcher w))%nat;
  wf_joined : (4 ≤ phase (watcher w))%nat → all_done (taskManager (sess w)) = true;
  wf_changed :
    chanClosed (connectionsChanged (sess w)) = bool_decide (5 ≤ phase (watcher w))%nat;
  wf_closing :
    chanClosed (sessionClosing (sess w)) = bool_decide (6 ≤ phase (watcher w))%nat;
  wf_releases :
    releases (gpus (sess w))
    = (r0 + if bool_decide (7 ≤ phase (watcher w))%nat then 1 else 0)%nat;
  wf_log :
    filter is_teardown (log w) = take (teardown_seen (watcher w)) (teardown_order id)
}.


(** The values of the closed flag along a run, one per world visited. *)
Fixpoint flag_history (ls : list label) (w : World) : list bool :=
  closed (sess w) ::
  match ls with
  | [] => []
  | l :: ls' =>
      match step l w with
      | Some w' => flag_history ls' w'
      | None => []
      end
  end.

(** How often a list of flag values goes from [a] to [b]. *)
Fixpoint changes (a b : bool) (bs : list bool) : nat :=
  match bs with
  | [] => 0
  | x :: tl =>
      match tl with
      | [] => 0
      | y :: _ => (if bool_decide (x = a ∧ y = b) then 1 else 0) + changes a b tl
      end
  end.

(** ** Sample data *)

Definition sample_gpus : SelectedGpuSet := mkGpuSet "0000:01:00.0" ["gpu0"] 0.

Definition sample_data : restapi.ConnectionData :=
  restapi.mkConnectionData "c1" "4242" "render".

(** A persistent and a non-persistent session, just started. *)
Definition persistent_world : World := started "s1" "1.0" true "/opt/juice" sample_gpus 0.
Definition idle_world : World := started "s1" "1.0" false "/opt/juice" sample_gpus 0.

(** Explicit cancellation followed by the whole teardown of the watcher. *)
Definition teardown_run : list label :=
  [LCancel; LWatcherOwn; LWatcher; LWatcher; LWatcher; LWatcher; LWatcher; LWatcher].

Definition after (ls : list label) (w : World) : World := default w (run ls w).

(** One connection served from [Connect] to its exit, then an explicit
    [Cancel] and the teardown. *)
Definition full_run : list label :=
  [LConnect sample_data None; LSendConnect; LTickerChanged; LCreated; LAttach None;
   LExit 0 0; LSendWatcher 0; LTickerChanged; LClosedEvent 0;
   LCancel; LWatcherOwn; LWatcher; LWatcher; LWatcher; LWatcher; LWatcher; LWatcher].






(** ** Vocabulary of the connections-changed signal *)

Definition is_connection_event (e : event) : bool :=
  is_connection_created e || is_connection_closed e.



(** A session in which nothing gets past a connections-changed send: the
    mutex is free and the map still empty, or the mutex is held at line 198;
    every watcher waits for its exit code or stands at line 190; no
    connection event has been reported. *)
Definition quiet (w : World) : Prop :=
  ((holder w = None ∧ connections (sess w) = ∅) ∨ ∃ c, holder w = Some (AtSend c)) ∧
  (∀ i c p, tasks (taskManager (sess w)) !! i = Some (c, p) →
            p = CWRecv ∨ ∃ n, p = CWSend n) ∧
  filter is_connection_event (log w) = [].

(** The session after line 197 of [addConnection] for the data [d]: watcher
    spawned, connection stored. *)
Definition registered (s : Session) (d : restapi.ConnectionData) : Session :=
  (addConnection s d None).2.

(** A persistent session in which a first stream has connected and the
    parent scope has then been cancelled; the same session after the
    connection has instead come to its end with exit code 0. *)
Definition leak_run : list label :=
  [LConnect sample_data None; LParentCancel; LWatcherParent].

Definition exit_run : list label :=
  [LConnect sample_data None; LExit 0 0].

(** ** Vocabulary of the idle timer *)





(** ** The read accessor [Session] (lines 58-85) *)

(** [restapi.SessionActive] and [restapi.SessionClosed]. *)
Inductive SessionState := SessionActive | SessionClosed.

(** [restapi.Session], the value the accessor returns.  A
    [restapi.Connection] only wraps a [ConnectionData]. *)
Record SessionInfo := mkSessionInfo {
  infoId : string;
  infoState : SessionState;
  infoVersion : string;
  infoGpus : list string;
  infoConnections : list restapi.ConnectionData;
  infoPersistent : bool
}.

(** [gpus.GetGpus]. *)
Definition GetGpus (g : SelectedGpuSet) : list string := gpuList g.

(** [connections.Foreach] with the callback of lines 65-70, which appends
    the data of every entry and always asks to go on.  The order is the
    map's. *)
Definition Foreach_append (m : gmap string Connection) : list restapi.ConnectionData :=
  (λ kv, ConnectionData kv.2) <$> map_to_list m.

(** The method [Session] of [*Session]: the callback of
    [utilities.WithReturn], run with the mutex held. *)
Definition SessionSnapshot (s : Session) : SessionInfo :=
  let connections0 : list restapi.ConnectionData := [] in
  let gpus0 : list string := [] in
  if negb (closed s) then
    mkSessionInfo (Id s) SessionActive (Version s) (GetGpus (gpus s))
      (connections0 ++ Foreach_append (connections s)) (Persistent s)
  else
    mkSessionInfo (Id s) SessionClosed (Version s) gpus0 connections0 (Persistent s).

(** ** Vocabulary of the further properties *)

(** What can make a session stop: the parent scope, an explicit [Cancel],
    a tick of the idle timer. *)
Definition is_trigger (l : label) : bool :=
  match l with
  | LParentCancel | LCancel | LTick => true
  | _ => false
  end.

Definition is_explicit_trigger (l : label) : bool :=
  match l with
  | LParentCancel | LCancel => true
  | _ => false
  end.

(** Nothing has asked the session to stop. *)
Definition undisturbed (w : World) : Prop :=
  watcher w = WSelect ∧ parentDone w = false ∧
  cancelled (taskManager (sess w)) = false ∧ ticker w ≠ Some TCancel.

(** The timer cannot expire before [T]: it is stopped or due at [T] or
    later, and a reset from now on would land at [T] or later. *)
Definition timer_window (T : Z) (w : World) : Prop :=
  (∀ due, timer w = Some due → T ≤ due) ∧ T ≤ now w + period.

(** Tick, [Cancel], and the whole teardown of the watcher. *)
Definition timeout_run (d : Z) : list label :=
  [LTime d; LTick; LTickerCancel; LWatcherOwn;
   LWatcher; LWatcher; LWatcher; LWatcher; LWatcher; LWatcher].

(** Watchers that have returned, and the call of [Connect] that has stored
    a connection and not yet reported it. *)
Definition returned (s : Session) : nat :=
  length (filter task_done (tasks (taskManager s))).

Definition unreported (w : World) : nat :=
  match holder w with
  | Some (AtSend _) | Some (AtCreated _) => 1
  | _ => 0
  end.

(** The connection was made for this session: with its juice path and the
    PCI bus string of its GPUs. *)
Definition made_for (s : Session) (c : Connection) : Prop :=
  connJuicePath c = juicePath s ∧ connPciBus c = pciBusString (gpus s).

Definition bound (w : World) : Prop :=
  (∀ k c, connections (sess w) !! k = Some c → connId c = k ∧ made_for (sess w) c) ∧
  (∀ i c p, tasks (taskManager (sess w)) !! i = Some (c, p) → made_for (sess w) c) ∧
  (∀ c, holder w = Some (AtSend c) ∨ holder w = Some (AtCreated c) ∨
        holder w = Some (AtAttach c) → made_for (sess w) c).

Definition is_response (e : effect) : bool :=
  match e with
  | RespondEmpty _ | RespondWithString _ _ => true
  | _ => false
  end.

Definition responses (es : list effect) : nat := length (filter is_response es).

Definition hijacked (es : list effect) : bool :=
  existsb (λ e, match e with Hijack => true | _ => false end) es.

Definition conn_closed (es : list effect) : bool :=
  existsb (λ e, match e with ConnClose => true | _ => false end) es.

Definition gpus_released (es : list effect) : bool :=
  existsb (λ e, match e with ReleaseSelectedGpus => true | _ => false end) es.

Definition signalled (es : list effect) : bool :=
  existsb (λ e, match e with Signal _ => true | _ => false end) es.

(** Every [ConnectionClosed] in the log stands for a watcher that has
    returned, and every [ConnectionCreated] in the log, like the connection a
    call of [Connect] has stored and not yet reported, for a watcher of its
    own. *)
Definition accounted (w : World) : Prop :=
  length (filter is_connection_closed (log w)) = returned (sess w) ∧
  (length (filter is_connection_created (log w)) + unreported w
   ≤ length (tasks (taskManager (sess w))))%nat.

(** One connection created, reported, ended and reported closed; and the
    same session after a full teardown. *)
Definition served_run : list label :=
  [LConnect sample_data None; LSendConnect; LTickerChanged; LCreated; LAttach None;
   LExit 0 0; LSendWatcher 0; LTickerChanged; LClosedEvent 0].
(** * Properties *)

(** ** Entering [Connect] *)

Lemma step_LConnect (w : World) d start :
  panicked w = false → locked w = false →
  step (LConnect d start) w =
    match Connect (sess w) d start with
    | (Returned _, s') => Some (upd_sess (λ _, s') w)
    | (Suspended p, s') => Some (set_holder (Some p) (upd_sess (λ _, s') w))
    end.
Proof. intros Hp Hl. unfold step. by rewrite Hp, Hl. Qed.

Lemma upd_sess_same (w : World) : upd_sess (λ _, sess w) w = w.
Proof. by destruct w. Qed.

(** ** The endpoints *)





Section RequestSessionFacts.
Context {RequestSession : Type}.
Variable startSession : Agent → RequestSession → Agent * (string + string).

Lemma requestSessionEp_halves (agent : Agent) (body : RequestSession + string)
    (respondFails : bool) :
  requestSessionEp startSession agent body respondFails
  = match requestSession_check agent body with
    | (None, es) => (agent, es)
    | (Some r, es) =>
        ((requestSession_start startSession agent r respondFails).1,
         es ++ (requestSession_start startSession agent r respondFails).2)
    end.
Proof.
  unfold requestSessionEp, requestSession_check, requestSession_start.
  destruct body as [r | msg]; [| done].
  destruct (sessions_full agent); [done |].
  by destruct (startSession agent r) as [agent' [id | msg]].
Qed.


End RequestSessionFacts.

(** ** Invariants of the running session *)

Lemma wf_start id version persistent juicePath g t0 :
  wf id persistent (releases g) (started id version persistent juicePath g t0).
Proof.
  split; simpl; try done.
  by destruct persistent.
Qed.

Lemma all_done_lookup (tm : TaskManager) (i : nat) (c : Connection) (p : cwpc) :
  all_done tm = true → tasks tm !! i = Some (c, p) → p = CWDone.
Proof.
  unfold all_done. rewrite forallb_forall. intros Hall Hi.
  apply list_elem_of_lookup_2 in Hi. rewrite list_elem_of_In in Hi.
  apply Hall in Hi. unfold task_done in Hi. simpl in Hi. by destruct p.
Qed.

Lemma Cancel_closed (s : Session) : closed (Cancel s) = closed s.
Proof. unfold Cancel. by destruct (closed s) eqn:E. Qed.

Lemma Cancel_Id s : Id (Cancel s) = Id s.
Proof. unfold Cancel. by destruct (closed s) eqn:E. Qed.
Lemma Cancel_Persistent s : Persistent (Cancel s) = Persistent s.
Proof. unfold Cancel. by destruct (closed s) eqn:E. Qed.
Lemma Cancel_connections s : connections (Cancel s) = connections s.
Proof. unfold Cancel. by destruct (closed s) eqn:E. Qed.
Lemma Cancel_connectionsChanged s : connectionsChanged (Cancel s) = connectionsChanged s.
Proof. unfold Cancel. by destruct (closed s) eqn:E. Qed.
Lemma Cancel_sessionClosing s : sessionClosing (Cancel s) = sessionClosing s.
Proof. unfold Cancel. by destruct (closed s) eqn:E. Qed.
Lemma Cancel_gpus s : gpus (Cancel s) = gpus s.
Proof. unfold Cancel. by destruct (closed s) eqn:E. Qed.
Lemma Cancel_tasks s : tasks (taskManager (Cancel s)) = tasks (taskManager s).
Proof. unfold Cancel. by destruct (closed s) eqn:E. Qed.
Lemma Cancel_all_done s : all_done (taskManager (Cancel s)) = all_done (taskManager s).
Proof. unfold all_done. by rewrite Cancel_tasks. Qed.

Ltac frame :=
  rewrite ?Cancel_closed, ?Cancel_Id, ?Cancel_Persistent, ?Cancel_connections,
    ?Cancel_connectionsChanged, ?Cancel_sessionClosing, ?Cancel_gpus, ?Cancel_tasks,
    ?Cancel_all_done.

Lemma Connect_inv s d start r s' :
  Connect s d start = (r, s') →
  Id s' = Id s ∧ Persistent s' = Persistent s ∧ closed s' = closed s ∧
  connectionsChanged s' = connectionsChanged s ∧
  sessionClosing s' = sessionClosing s ∧ gpus s' = gpus s ∧
  (closed s = true → s' = s) ∧
  (∀ p, r = Suspended p → closed s = false).
Proof.
  unfold Connect, addConnection. intros H.
  destruct (closed s) eqn:Hc; simpl in H.
  - by simplify_eq.
  - destruct (connections s !! restapi.Id d); [by simplify_eq |].
    destruct start; by simplify_eq.
Qed.

Ltac step_inv H :=
  repeat match type of H with
  | context [match ?x with _ => _ end] => destruct x eqn:?; try discriminate H
  end.

Lemma filter_teardown_snoc (lg : list event) (e : event) :
  filter is_teardown (lg ++ [e])
  = filter is_teardown lg ++ (if is_teardown e then [e] else []).
Proof. rewrite filter_app. f_equal. by destruct e. Qed.

Lemma wf_step id persistent r0 l w w' :
  wf id persistent r0 w → step l w = Some w' → wf id persistent r0 w'.
Proof.
  intros Hwf Hstep.
  destruct w as [s pd h wp tk tm nw pn lg].
  unfold step, watcher_step, ticker_receives, on_connectionsChanged, locked in Hstep.
  simpl in Hstep.
  destruct l; simpl in Hstep; step_inv Hstep; simplify_eq/=.
  all: destruct Hwf as [Hid Hp Htk Hal Hlk Hfl Hj Hch Hcl Hr Hlg]; unfold locked in *; simpl in *.
  all: try match goal with
       | H : Connect _ _ _ = _ |- _ =>
           apply Connect_inv in H;
           destruct H as (HcI & HcP & HcC & HcCh & HcCl & HcG & HcS & HcR)
       end.
  all: split; simpl; frame; rewrite ?filter_teardown_snoc; simpl;
    rewrite ?app_nil_r; try done; try congruence.
  all: try (by rewrite Hlg, ?Hid).
  all: try (intros; lia).
  all: try (intros _; apply Hj; simpl; lia).
  all: try (intros Hge; specialize (Hj Hge);
            match goal with
            | H : tasks _ !! _ = Some _ |- _ =>
                by apply (all_done_lookup _ _ _ _ Hj) in H
            end).
  all: unfold locked; simpl.
  all: try (by destruct h).
  all: try (intros _; rewrite HcC; by eapply HcR).
  all: try (intros Hge; rewrite HcS; [by apply Hj |];
            rewrite Hfl; apply bool_decide_eq_true; lia).
  all: match goal with H : chanClosed _ = true |- _ => rewrite H in Hch end;
    symmetry in Hch; apply bool_decide_eq_true in Hch.
  - specialize (Hlk eq_refl). rewrite Hfl in Hlk.
    apply bool_decide_eq_false in Hlk. lia.
  - assert (Hd : all_done (taskManager s) = true) by (apply Hj; lia).
    match goal with
    | H : tasks _ !! _ = Some _ |- _ => by apply (all_done_lookup _ _ _ _ Hd) in H
    end.
Qed.

Lemma wf_run id persistent r0 (ls : list label) (w w' : World) :
  wf id persistent r0 w → run ls w = Some w' → wf id persistent r0 w'.
Proof.
  revert w. induction ls as [| l ls IH]; intros w Hwf Hrun; simpl in Hrun.
  - by simplify_eq.
  - destruct (step l w) as [w1 |] eqn:Hstep; [| done].
    eapply IH; [| done]. by eapply wf_step.
Qed.

Lemma wf_reachable id version persistent juicePath g t0 (w : World) :
  reachable (started id version persistent juicePath g t0) w →
  wf id persistent (releases g) w.
Proof. intros [ls Hrun]. eapply wf_run; [apply wf_start | done]. Qed.

(** ** The closed flag *)

Lemma step_closed (l : label) (w w' : World) :
  step l w = Some w' →
  closed (sess w') = closed (sess w) ∨
  (l = LWatcher ∧ watcher w = WSet ∧ closed (sess w') = true).
Proof.
  intros Hstep.
  destruct w as [s pd h wp tk tm nw pn lg].
  unfold step, watcher_step, ticker_receives, on_connectionsChanged, locked in Hstep.
  simpl in Hstep.
  destruct l; simpl in Hstep; step_inv Hstep; simplify_eq/=; frame; auto.
  all: match goal with
       | H : Connect _ _ _ = _ |- _ => apply Connect_inv in H; left; tauto
       end.
Qed.

Lemma step_closed_mono (l : label) (w w' : World) :
  step l w = Some w' → closed (sess w) = true → closed (sess w') = true.
Proof. intros Hstep Hc. destruct (step_closed l w w' Hstep) as [-> | (_ & _ & ->)]; done. Qed.

Lemma flag_history_head (ls : list label) (w : World) :
  ∃ tl, flag_history ls w = closed (sess w) :: tl.
Proof. destruct ls; simpl; eauto. Qed.

Lemma flag_history_step (l : label) (ls : list label) (w w' : World) :
  step l w = Some w' →
  ∃ tl, flag_history ls w' = closed (sess w') :: tl ∧
        flag_history (l :: ls) w = closed (sess w) :: closed (sess w') :: tl.
Proof.
  intros Hstep. destruct (flag_history_head ls w') as [tl Htl].
  exists tl. split; [done |]. simpl. by rewrite Hstep, Htl.
Qed.

Lemma changes_cons (a b x y : bool) (tl : list bool) :
  changes a b (x :: y :: tl)
  = ((if bool_decide (x = a ∧ y = b) then 1 else 0) + changes a b (y :: tl))%nat.
Proof. reflexivity. Qed.

Lemma flag_history_closed (ls : list label) (w : World) :
  closed (sess w) = true →
  changes false true (flag_history ls w) = 0%nat ∧
  changes true false (flag_history ls w) = 0%nat.
Proof.
  revert w. induction ls as [| l ls IH]; intros w Hc; [done |].
  destruct (step l w) as [w' |] eqn:Hstep; [| by simpl; rewrite Hstep].
  pose proof (step_closed_mono l w w' Hstep Hc) as Hc'.
  destruct (flag_history_step l ls w w' Hstep) as (tl & Htl & ->).
  destruct (IH w' Hc') as [IH1 IH2]. rewrite Htl in IH1, IH2.
  rewrite !changes_cons, IH1, IH2, Hc, Hc'.
  split; case_bool_decide as Hd; try done; by destruct Hd.
Qed.

(** C5: along every run, from every world, the closed flag goes from false
    to true at most once and never from true to false; [Cancel] does not
    write the flag, and the only statement that changes it is the closing
    watcher's [session.closed.Set(true)] of line 98. *)
Theorem closed_flag_monotonic :
  (∀ (ls : list label) (w : World),
     (changes false true (flag_history ls w) ≤ 1)%nat ∧
     changes true false (flag_history ls w) = 0%nat) ∧
  (∀ s : Session, closed (Cancel s) = closed s) ∧
  (∀ (l : label) (w w' : World),
     step l w = Some w' → closed (sess w') ≠ closed (sess w) →
     l = LWatcher ∧ watcher w = WSet ∧ closed (sess w) = false ∧ closed (sess w') = true).
Proof.
  split; [| split].
  - intros ls. induction ls as [| l ls IH]; intros w; [simpl; split; [lia | done] |].
    destruct (step l w) as [w' |] eqn:Hstep; [| simpl; rewrite Hstep; split; [lia | done]].
    destruct (flag_history_step l ls w w' Hstep) as (tl & Htl & ->).
    rewrite !changes_cons.
    destruct (closed (sess w')) eqn:Hc'.
    + destruct (flag_history_closed ls w' Hc') as [H1 H2].
      rewrite Htl in H1, H2. rewrite H1, H2.
      split; case_bool_decide as Hd; lia.
    + destruct (IH w') as [H1 H2]. rewrite Htl in H1, H2.
      destruct (closed (sess w)) eqn:Hc.
      * by rewrite (step_closed_mono l w w' Hstep Hc) in Hc'.
      * split; case_bool_decide as Hd; try lia; by destruct Hd.
  - apply Cancel_closed.
  - intros l w w' Hstep Hne.
    destruct (step_closed l w w' Hstep) as [Heq | (-> & Hw & Hc)]; [done |].
    repeat split; try done. rewrite Hc in Hne. by destruct (closed (sess w)).
Qed.

(** ** Persistent sessions: the send that nobody receives *)

Lemma filter_connection_event_snoc (lg : list event) (e : event) :
  filter is_connection_event (lg ++ [e])
  = filter is_connection_event lg ++ (if is_connection_event e then [e] else []).
Proof. rewrite filter_app. f_equal. by destruct e. Qed.

Lemma Connect_tasks s d start r s' :
  Connect s d start = (r, s') →
  tasks (taskManager s') = tasks (taskManager s) ∨
  ∃ c, r = Suspended (AtSend c) ∧ tasks (taskManager s') = tasks (taskManager s) ++ [(c, CWRecv)].
Proof.
  unfold Connect, addConnection. intros H.
  destruct (closed s) eqn:Hc; simpl in H; [by simplify_eq; left |].
  destruct (connections s !! restapi.Id d); [by simplify_eq; left |].
  destruct start; simplify_eq; [by left |]. right. eauto.
Qed.

Lemma stall_step id r0 l w w' :
  wf id true r0 w → step l w = Some w' →
  (∀ c, holder w = Some (AtSend c) → holder w' = Some (AtSend c)) ∧
  (∀ i c n, tasks (taskManager (sess w)) !! i = Some (c, CWSend n) →
            tasks (taskManager (sess w')) !! i = Some (c, CWSend n)) ∧
  (locked w = true → ∀ k, connections (sess w) !! k = None →
                          connections (sess w') !! k = None).
Proof.
  intros Hwf Hstep.
  destruct w as [s pd h wp tk tm nw pn lg].
  unfold step, watcher_step, ticker_receives, on_connectionsChanged, locked in Hstep.
  simpl in Hstep.
  destruct l; simpl in Hstep; step_inv Hstep; simplify_eq/=.
  all: destruct Hwf as [Hid Hp Htk Hal Hlk Hfl Hj Hch Hcl Hr Hlg]; unfold locked in *; simpl in *.
  all: try done.
  all: split; [try done | split; [intros i' c' n' Hi'; frame; try done |]].
  all: try (intros _ k Hk; frame; try done; by apply lookup_delete_None; right).
  all: try match goal with
       | H : Connect _ _ _ = _ |- _ =>
           apply Connect_tasks in H; destruct H as [-> | (? & _ & ->)];
           [done | by apply lookup_app_l_Some]
       end.
  all: try (intros ? ->; done).
  all: try (intros Hl; congruence).
  all: destruct (decide (i = i')) as [-> | Hne];
    [congruence | by rewrite list_lookup_insert_ne].
Qed.

Lemma Connect_cases s d start r s' :
  Connect s d start = (r, s') →
  (s' = s ∧ ∃ e, r = Returned (Some e)) ∨
  (s' = s ∧ ∃ c, r = Suspended (AtAttach c) ∧ connections s !! restapi.Id d = Some c) ∨
  (∃ c, r = Suspended (AtSend c) ∧ connections s !! restapi.Id d = None ∧
        tasks (taskManager s') = tasks (taskManager s) ++ [(c, CWRecv)] ∧
        connections s' = <[connId c := c]> (connections s)).
Proof.
  unfold Connect, addConnection. intros H.
  destruct (closed s) eqn:Hc; simpl in H; [simplify_eq; left; eauto |].
  destruct (connections s !! restapi.Id d) eqn:Hd; [simplify_eq; right; left; eauto |].
  destruct start; simplify_eq; [left; eauto |].
  right; right. eexists. repeat split; done.
Qed.

Lemma quiet_step id r0 l w w' :
  wf id true r0 w → quiet w → step l w = Some w' → quiet w'.
Proof.
  intros Hwf (Hh & Ht & Hl) Hstep.
  destruct w as [s pd h wp tk tm nw pn lg].
  unfold step, watcher_step, ticker_receives, on_connectionsChanged, locked in Hstep.
  simpl in Hstep.
  destruct l; simpl in Hstep; step_inv Hstep; simplify_eq/=.
  all: destruct Hwf as [Hid Hp Htk Hal Hlk Hfl Hj Hch Hcl Hr Hlg]; unfold locked in *; simpl in *.
  all: try done.
  all: try (destruct Hh as [[? ?] | [? ?]]; done).
  all: try match goal with
       | H : tasks _ !! _ = Some (_, CWEmit _) |- _ => by destruct (Ht _ _ _ H) as [? | [? ?]]
       end.
  all: try match goal with
       | H : Connect _ _ _ = _ |- _ =>
           apply Connect_cases in H;
           destruct H as [[-> [? ?]] | [[-> (? & ? & Hf)] | (? & ? & Hn & Hts & Hcs)]];
           simplify_eq
       end.
  all: split; [| split]; simpl; frame; rewrite ?filter_connection_event_snoc, ?app_nil_r; try done.
  all: try (right; eauto; fail).
  - destruct Hh as [[-> Hm] | [? ->]]; [| done]. by rewrite Hm, lookup_empty in Hf.
  - intros i c p. rewrite Hts. intros Hi.
    apply lookup_app_Some in Hi as [Hi | [_ Hi]]; [by eapply Ht |].
    apply list_lookup_singleton_Some in Hi as [_ Hi]. simplify_eq. by left.
  - destruct Hh as [[-> Hm] | ?]; [left | by right].
    split; [done |]. by rewrite Hm, delete_empty.
  - intros i0 c0 p Hi.
    destruct (decide (i = i0)) as [-> | Hne].
    + rewrite list_lookup_insert_eq in Hi by (by eapply lookup_lt_Some).
      simplify_eq. right. eauto.
    + rewrite list_lookup_insert_ne in Hi by done. by eapply Ht.
Qed.

Lemma quiet_started id version juicePath g t0 :
  quiet (started id version true juicePath g t0).
Proof.
  split; [left; done | split; [| done]].
  intros i c p Hi. simpl in Hi. by rewrite lookup_nil in Hi.
Qed.

Lemma quiet_run id r0 (ls : list label) (w w' : World) :
  wf id true r0 w → quiet w → run ls w = Some w' → quiet w'.
Proof.
  revert w. induction ls as [| l ls IH]; intros w Hwf Hq Hrun; simpl in Hrun.
  - by simplify_eq.
  - destruct (step l w) as [w1 |] eqn:Hstep; [| done].
    eapply (IH w1); [by eapply wf_step | by eapply quiet_step | done].
Qed.

Lemma stall_run id r0 (ls : list label) (w w' : World) :
  wf id true r0 w → run ls w = Some w' →
  (∀ c, holder w = Some (AtSend c) → holder w' = Some (AtSend c)) ∧
  (∀ i c n, tasks (taskManager (sess w)) !! i = Some (c, CWSend n) →
            tasks (taskManager (sess w')) !! i = Some (c, CWSend n)) ∧
  (∀ c, holder w = Some (AtSend c) → ∀ k, connections (sess w) !! k = None →
                                         connections (sess w') !! k = None).
Proof.
  revert w. induction ls as [| l ls IH]; intros w Hwf Hrun; simpl in Hrun.
  - by simplify_eq.
  - destruct (step l w) as [w1 |] eqn:Hstep; [| done].
    destruct (stall_step id r0 l w w1 Hwf Hstep) as (H1 & H2 & H3).
    destruct (IH w1 (wf_step _ _ _ _ _ _ Hwf Hstep) Hrun) as (I1 & I2 & I3).
    split; [| split].
    + intros c Hc. by apply I1, H1.
    + intros i c n Hi. by apply I2, H2.
    + intros c Hc k Hk. eapply I3; [by apply H1 |].
      apply H3; [| done]. unfold locked. by rewrite Hc.
Qed.

Lemma filter_nil_weaken (f g : event → bool) (l : list event) :
  (∀ e, g e = true → f e = true) → filter f l = [] → filter g l = [].
Proof.
  intros Hfg. induction l as [| e l IH]; [done |].
  rewrite !filter_cons. destruct (f e) eqn:Hf; simpl; [done |].
  destruct (g e) eqn:Hg; simpl; [| done].
  apply Hfg in Hg. congruence.
Qed.

Lemma connect_fresh (w : World) (d : restapi.ConnectionData) :
  panicked w = false → locked w = false → closed (sess w) = false →
  connections (sess w) !! restapi.Id d = None →
  step (LConnect d None) w
  = Some (set_holder
            (Some (AtSend (newConnection d (juicePath (sess w))
                             (GetPciBusString (gpus (sess w))))))
            (upd_sess (λ _, registered (sess w) d) w)).
Proof.
  intros Hp Hl Hc Hd. rewrite step_LConnect by done.
  unfold Connect. by rewrite Hc, Hd.
Qed.

Lemma connect_started id version persistent juicePath g t0 d :
  step (LConnect d None) (started id version persistent juicePath g t0)
  = Some (set_holder
            (Some (AtSend (newConnection d juicePath (GetPciBusString g))))
            (upd_sess (λ s, registered s d) (started id version persistent juicePath g t0))).
Proof. by rewrite connect_fresh. Qed.

(** C4: a persistent session has no ticker, and the ticker is the only
    receiver of [connectionsChanged], so no send on it is ever enabled.  A
    [Connect] that creates a connection gets to the send of line 198 with the
    connection already in the map, and a watcher whose connection has ended
    gets to the send of line 190.  From then on, in every world the session
    can reach, that call still holds the mutex at line 198 and that watcher
    still stands at line 190: the channel is never closed under them, no
    [ConnectionCreated] and no [ConnectionClosed] is ever reported. *)
Theorem persistent_signal_stalls id version juicePath g t0 (w : World) :
  reachable (started id version true juicePath g t0) w →
  (∀ persistent,
     ticker (started id version persistent juicePath g t0)
     = if persistent then None else Some TSelect) ∧
  ticker w = None ∧
  step LSendConnect w = None ∧
  (∀ i, step (LSendWatcher i) w = None) ∧
  (∀ d, locked w = false → closed (sess w) = false →
        connections (sess w) !! restapi.Id d = None →
        ∃ w1 c, step (LConnect d None) w = Some w1 ∧
                holder w1 = Some (AtSend c) ∧
                connections (sess w1) !! restapi.Id d = Some c) ∧
  (∀ i c n, tasks (taskManager (sess w)) !! i = Some (c, CWRecv) →
            ∃ w1, step (LExit i n) w = Some w1 ∧
                  tasks (taskManager (sess w1)) !! i = Some (c, CWSend n)) ∧
  (∀ w', reachable w w' →
         (∀ c, holder w = Some (AtSend c) → holder w' = Some (AtSend c)) ∧
         (∀ i c n, tasks (taskManager (sess w)) !! i = Some (c, CWSend n) →
                   tasks (taskManager (sess w')) !! i = Some (c, CWSend n)) ∧
         filter is_connection_event (log w') = [] ∧
         panicked w' = false).
Proof.
  intros Hreach.
  pose proof (wf_reachable _ _ _ _ _ _ _ Hreach) as Hwf.
  assert (Htk : ticker w = None).
  { destruct Hwf. by destruct (ticker w). }
  assert (Hal : panicked w = false) by by destruct Hwf.
  split; [by intros [] |]. split; [done |].
  split; [| split; [| split; [| split]]].
  - unfold step, ticker_receives. rewrite Hal, Htk.
    destruct (holder w) as [[] |]; try done. by destruct (chanClosed _).
  - intros i. unfold step, ticker_receives. rewrite Hal, Htk.
    destruct (tasks (taskManager (sess w)) !! i) as [[c []] |]; try done.
    by destruct (chanClosed _).
  - intros d Hl Hc Hd. rewrite connect_fresh by done.
    eexists _, _. split; [done |]. split; [done |]. simpl.
    unfold connId, newConnection. simpl. apply lookup_insert_eq.
  - intros i c n Hi. unfold step. rewrite Hal, Hi.
    eexists. split; [done |]. simpl.
    apply list_lookup_insert_eq. by eapply lookup_lt_Some.
  - intros w' [ls Hrun].
    destruct (stall_run _ _ _ _ _ Hwf Hrun) as (H1 & H2 & _).
    split; [done |]. split; [done |].
    assert (Hq : quiet w).
    { destruct Hreach as [ls0 Hrun0].
      eapply quiet_run; [apply wf_start | apply quiet_started | done]. }
    pose proof (quiet_run _ _ _ _ _ Hwf Hq Hrun) as (_ & _ & Hlog).
    split; [done |]. by destruct (wf_run _ _ _ _ _ _ Hwf Hrun).
Qed.

Lemma persistent_signal_stalls_witness :
  ticker (after [LConnect sample_data None] persistent_world) = None ∧
  step LSendConnect (after [LConnect sample_data None] persistent_world) = None ∧
  holder (after leak_run persistent_world)
  = Some (AtSend (newConnection sample_data "/opt/juice" "0000:01:00.0")) ∧
  filter is_connection_event (log (after leak_run persistent_world)) = [].
Proof.
  assert (Hr : reachable (started "s1" "1.0" true "/opt/juice" sample_gpus 0)
                 (after [LConnect sample_data None] persistent_world)).
  { exists [LConnect sample_data None]. vm_compute. reflexivity. }
  destruct (persistent_signal_stalls _ _ _ _ _ _ Hr) as (_ & H1 & H2 & _ & _ & _ & H).
  split; [exact H1 |]. split; [exact H2 |].
  destruct (H (after leak_run persistent_world)) as (H3 & _ & H4 & _).
  - exists [LParentCancel; LWatcherParent]. vm_compute. reflexivity.
  - split; [| exact H4]. apply H3. vm_compute. reflexivity.
Defined.

(** C2, at the failing input: in a persistent session, once one stream has
    connected with a new identifier, [Release] is never called, whatever
    cancellation follows.  The call of [Connect] holds the mutex at line 198
    for ever, so the closing watcher cannot get past [session.Cancel()] or
    [session.closed.Set(true)]: the flag stays false, the release count stays
    what it was and no release is logged. *)
Theorem persistent_connect_never_releases id version juicePath g t0
    (d : restapi.ConnectionData) (w w' : World) :
  step (LConnect d None) (started id version true juicePath g t0) = Some w →
  reachable w w' →
  holder w' = Some (AtSend (newConnection d juicePath (GetPciBusString g))) ∧
  (phase (watcher w') ≤ 2)%nat ∧
  closed (sess w') = false ∧
  releases (gpus (sess w')) = releases g ∧
  filter is_release (log w') = [].
Proof.
  intros Hstep Hreach'.
  assert (Hreach : reachable (started id version true juicePath g t0) w).
  { exists [LConnect d None]. simpl. by rewrite Hstep. }
  pose proof (wf_reachable _ _ _ _ _ _ _ Hreach) as Hwf.
  destruct Hreach' as [ls Hrun].
  destruct (stall_run _ _ _ _ _ Hwf Hrun) as (H1 & _ & _).
  rewrite connect_started in Hstep. simplify_eq.
  specialize (H1 _ eq_refl).
  destruct (wf_run _ _ _ _ _ _ Hwf Hrun).
  assert (Hc : closed (sess w') = false).
  { apply wf_lock0. unfold locked. by rewrite H1. }
  rewrite wf_flag0 in Hc. apply bool_decide_eq_false in Hc.
  assert (Hph : (phase (watcher w') ≤ 2)%nat) by lia.
  split; [done |]. split; [done |].
  split; [rewrite wf_flag0; apply bool_decide_eq_false; lia |].
  split.
  - rewrite wf_releases0. case_bool_decide; lia.
  - apply (filter_nil_weaken is_teardown); [by intros [] |].
    rewrite wf_log0. by destruct (watcher w'); simpl in *; try lia.
Qed.

Lemma persistent_connect_never_releases_witness :
  releases (gpus (sess (after leak_run persistent_world))) = 0%nat ∧
  watcher (after leak_run persistent_world) = WCancel ∧
  step LWatcher (after leak_run persistent_world) = None.
Proof.
  split; [| split; vm_compute; reflexivity].
  apply (persistent_connect_never_releases "s1" "1.0" "/opt/juice" sample_gpus 0
           sample_data (after [LConnect sample_data None] persistent_world)
           (after leak_run persistent_world)).
  - vm_compute. reflexivity.
  - exists [LParentCancel; LWatcherParent]. vm_compute. reflexivity.
Defined.

(** C7, at the failing input.  [addConnection] spawns one watcher for the
    connection it stores.  In a persistent session, when that connection
    ends with some exit code, the watcher removes it from the map and then
    stands at the send of line 190 for ever: in no world the session can
    reach is a [ConnectionClosed] reported. *)
Theorem persistent_connection_closed_never_reported id version path g t0
    (d : restapi.ConnectionData) (exitCode : Z) (w w' : World) :
  run [LConnect d None; LExit 0 exitCode] (started id version true path g t0)
  = Some w →
  reachable w w' →
  (∀ s, tasks (taskManager (registered s d))
        = tasks (taskManager s)
            ++ [(newConnection d (juicePath s) (GetPciBusString (gpus s)), CWRecv)]) ∧
  connections (sess w') !! restapi.Id d = None ∧
  tasks (taskManager (sess w')) !! 0%nat
  = Some (newConnection d path (GetPciBusString g), CWSend exitCode) ∧
  filter is_connection_closed (log w') = [].
Proof.
  intros Hrun0 Hreach'.
  assert (Hreach : reachable (started id version true path g t0) w)
    by by eexists.
  pose proof (wf_reachable _ _ _ _ _ _ _ Hreach) as Hwf.
  simpl in Hrun0. rewrite connect_started in Hrun0.
  unfold step in Hrun0. simpl in Hrun0. simplify_eq.
  destruct Hreach' as [ls Hrun].
  destruct (stall_run _ _ _ _ _ Hwf Hrun) as (_ & H2 & H3).
  split; [done |]. split; [| split].
  - eapply H3; [done |]. simpl.
    unfold connId, newConnection. simpl. by rewrite lookup_delete_eq.
  - by apply H2.
  - assert (Hq : quiet w').
    { destruct Hreach as [ls0 Hrun1]. eapply quiet_run; [apply Hwf | | done].
      eapply quiet_run; [apply wf_start | apply quiet_started | done]. }
    destruct Hq as (_ & _ & Hlog).
    apply (filter_nil_weaken is_connection_event); [| done].
    intros []; try done.
Qed.

Lemma persistent_connection_closed_never_reported_witness :
  connections (sess (after exit_run persistent_world)) !! "c1" = None ∧
  filter is_connection_closed (log (after exit_run persistent_world)) = [] ∧
  step (LSendWatcher 0) (after exit_run persistent_world) = None.
Proof.
  destruct (persistent_connection_closed_never_reported "s1" "1.0" "/opt/juice"
              sample_gpus 0 sample_data 0 (after exit_run persistent_world)
              (after exit_run persistent_world)) as (_ & H1 & _ & H3).
  - vm_compute. reflexivity.
  - exists []. reflexivity.
  - split; [exact H1 |]. split; [exact H3 |]. vm_compute. reflexivity.
Defined.

(** ** The idle ticker *)










(** ** [Connect] on a closed session, and a failing [Start] *)

(** C1: on a session whose closed flag is true, [Connect] returns
    [ErrClosed] and hands back the session as it was: the connection map (its
    contents, hence its size) and the task list are the same, so no
    Connection was created.  In a running session such a call never waits for
    the mutex, and the world after the call is the world before it. *)
Theorem Connect_closed_rejected (s : Session) (d : restapi.ConnectionData)
    (start : option error) :
  closed s = true →
  Connect s d start = (Returned (Some ErrClosed), s) ∧
  (∀ s', (Connect s d start).2 = s' →
         connections s' = connections s ∧
         size (connections s') = size (connections s) ∧
         tasks (taskManager s') = tasks (taskManager s)) ∧
  (∀ id version persistent juicePath g t0 w,
     reachable (started id version persistent juicePath g t0) w →
     sess w = s → step (LConnect d start) w = Some w).
Proof.
  intros Hc.
  assert (HC : Connect s d start = (Returned (Some ErrClosed), s)).
  { unfold Connect. by rewrite Hc. }
  split; [done |]. split.
  - intros s'. rewrite HC. simpl. by intros <-.
  - intros id version persistent juicePath g t0 w Hreach Hs. subst s.
    apply wf_reachable in Hreach. destruct Hreach.
    rewrite step_LConnect, HC, ?upd_sess_same; try done.
    destruct (locked w) eqn:Hl; [| done].
    rewrite wf_lock0 in Hc; done.
Qed.

Lemma Connect_closed_rejected_witness :
  let w := after [LCancel; LWatcherOwn; LWatcher] idle_world in
  closed (sess w) = true ∧
  Connect (sess w) sample_data None = (Returned (Some ErrClosed), sess w) ∧
  step (LConnect sample_data None) w = Some w.
Proof.
  intros w.
  assert (Hc : closed (sess w) = true) by reflexivity.
  destruct (Connect_closed_rejected (sess w) sample_data None Hc) as (H1 & _ & H3).
  split; [exact Hc |]. split; [exact H1 |].
  apply (H3 "s1" "1.0" false "/opt/juice" sample_gpus 0 w); [| reflexivity].
  exists [LCancel; LWatcherOwn; LWatcher]. vm_compute. reflexivity.
Defined.

(** C8: on an open session that does not know the identifier, a failing
    [Start] makes [addConnection] return the error at once and [Connect]
    return it wrapped; the session is handed back as it was (same map, no
    watcher spawned), the call does not reach the send of line 198 nor the
    notification of line 200, and the world after the call is the world
    before it: nothing was signalled and nothing was logged. *)
Theorem Connect_start_failure (s : Session) (d : restapi.ConnectionData) (err : error) :
  closed s = false →
  connections s !! restapi.Id d = None →
  addConnection s d (Some err) = (AddFailed err, s) ∧
  Connect s d (Some err) = (Returned (Some (Wrapped (connect_failed_msg s d) err)), s) ∧
  (∀ w, sess w = s → panicked w = false → locked w = false →
        step (LConnect d (Some err)) w = Some w).
Proof.
  intros Hc Hget.
  assert (HC : Connect s d (Some err)
               = (Returned (Some (Wrapped (connect_failed_msg s d) err)), s)).
  { unfold Connect. by rewrite Hc, Hget. }
  split; [done |]. split; [done |].
  intros w <- Hp Hl. by rewrite step_LConnect, HC, ?upd_sess_same.
Qed.

Lemma Connect_start_failure_witness :
  Connect (sess idle_world) sample_data (Some (StartError "no such binary"))
  = (Returned (Some (Wrapped "session s1 connection c1 failed to connect"
                             (StartError "no such binary"))), sess idle_world) ∧
  step (LConnect sample_data (Some (StartError "no such binary"))) idle_world
  = Some idle_world.
Proof.
  destruct (Connect_start_failure (sess idle_world) sample_data
              (StartError "no such binary") eq_refl eq_refl) as (_ & H2 & H3).
  split; [exact H2 |]. apply H3; reflexivity.
Defined.


(** ** Teardown *)

(** A non-persistent session serves one connection from [Connect] to its
    exit and is then cancelled: every signal is received by the ticker, both
    connection events are reported, and teardown releases the reservation
    once. *)
Example idle_session_full_run :
  log (after full_run idle_world)
  = [EvConnectionCreated "s1" sample_data; EvConnectionClosed "s1" sample_data 0;
     EvClosedSet; EvWaitReturned; EvReleased; EvSessionClosed "s1"] ∧
  releases (gpus (sess (after full_run idle_world))) = 1%nat ∧
  connections (sess (after full_run idle_world)) = ∅ ∧
  watcher (after full_run idle_world) = WDone.
Proof. repeat split; vm_compute; reflexivity. Qed.

(** C3: in every world a started session can reach, the teardown events
    logged so far are an initial part of: closed flag set, [Wait] returned,
    GPU reservation released, [SessionClosed] emitted.  So each happens at
    most once and none precedes an earlier one.  The events are tied to the
    state: the flag is true exactly once the first is logged, every task of
    the task manager has returned once the second is, and [Release] has been
    called exactly when the third is. *)
Theorem teardown_in_order id version persistent juicePath g t0 (w : World) :
  reachable (started id version persistent juicePath g t0) w →
  ∃ n : nat,
    filter is_teardown (log w) = take n (teardown_order id) ∧
    filter is_teardown (log w) `prefix_of` teardown_order id ∧
    (closed (sess w) = true ↔ (1 ≤ n)%nat) ∧
    ((2 ≤ n)%nat → all_done (taskManager (sess w)) = true) ∧
    releases (gpus (sess w))
    = (releases g + if bool_decide (3 ≤ n)%nat then 1 else 0)%nat.
Proof.
  intros Hreach. apply wf_reachable in Hreach. destruct Hreach.
  exists (teardown_seen (watcher w)).
  split; [done |]. split; [rewrite wf_log0; apply prefix_take |].
  rewrite wf_flag0, wf_releases0.
  destruct (watcher w); simpl in *; repeat split; try done; try lia;
    intros; try lia; apply wf_joined0; lia.
Qed.

Lemma teardown_in_order_witness :
  ∃ n : nat,
    filter is_teardown (log (after teardown_run idle_world))
    = take n (teardown_order "s1") ∧
    filter is_teardown (log (after teardown_run idle_world)) `prefix_of` teardown_order "s1" ∧
    (closed (sess (after teardown_run idle_world)) = true ↔ (1 ≤ n)%nat) ∧
    ((2 ≤ n)%nat → all_done (taskManager (sess (after teardown_run idle_world))) = true) ∧
    releases (gpus (sess (after teardown_run idle_world)))
    = (releases sample_gpus + if bool_decide (3 ≤ n)%nat then 1 else 0)%nat.
Proof.
  apply (teardown_in_order "s1" "1.0" false "/opt/juice" sample_gpus 0
           (after teardown_run idle_world)).
  exists teardown_run. vm_compute. reflexivity.
Defined.

(** ** The endpoints, continued *)





(** C10: when [getSession] returns a nil session and a nil error, the
    handler of [connectSessionEp] answers 400 and goes on: whatever the cast
    and the hijack do, something follows the 400 response.  When both
    succeed the handler hijacks the connection and calls [Connect] on the nil
    session, which dereferences it: the handler ends in a nil-pointer panic. *)
Theorem connectSession_nil_session_continues (cast hijack : option string)
    (result : option error) :
  (∃ rest, (connectSessionEp (None, None) cast hijack result).1
           = RespondEmpty StatusBadRequest :: rest ∧ rest ≠ []) ∧
  connectSessionEp (None, None) None None result
  = ([RespondEmpty StatusBadRequest; Hijack], NilDereference) ∧
  ConnectOn None result = inr NilDereference ∧
  ((connectSessionEp (None, None) cast hijack result).2 = NilDereference
   ↔ cast = None ∧ hijack = None).
Proof.
  split; [| split; [done | split; [done |]]].
  - destruct cast, hijack; simpl; eauto.
  - destruct cast, hijack; simpl; split; try done; intros [? ?]; done.
Qed.

(** * Further properties *)

(** ** The read accessor *)

(** X1: the snapshot keeps the identifier, the version and the persistence
    flag.  Of a closed session it reports the closed state with no GPU and
    no connection, whatever the map still holds.  Of an open session it
    reports the active state, the GPUs of the reservation, and one entry per
    entry of the connection map: as many as the map has, and exactly the
    data of the connections stored in it. *)
Theorem SessionSnapshot_lists_connections (s : Session) :
  infoId (SessionSnapshot s) = Id s ∧
  infoVersion (SessionSnapshot s) = Version s ∧
  infoPersistent (SessionSnapshot s) = Persistent s ∧
  (closed s = true →
   infoState (SessionSnapshot s) = SessionClosed ∧
   infoGpus (SessionSnapshot s) = [] ∧
   infoConnections (SessionSnapshot s) = []) ∧
  (closed s = false →
   infoState (SessionSnapshot s) = SessionActive ∧
   infoGpus (SessionSnapshot s) = gpuList (gpus s) ∧
   length (infoConnections (SessionSnapshot s)) = size (connections s) ∧
   ∀ d, d ∈ infoConnections (SessionSnapshot s)
        ↔ ∃ k c, connections s !! k = Some c ∧ ConnectionData c = d).
Proof.
  unfold SessionSnapshot, Foreach_append.
  destruct (closed s) eqn:Hc; simpl.
  - repeat (split; [done |]). done.
  - repeat (split; [done |]).
    split; [by rewrite length_fmap, length_map_to_list |].
    intros d. rewrite list_elem_of_fmap. split.
    + intros [[k c] [-> Hkc]]. apply elem_of_map_to_list in Hkc. eauto.
    + intros (k & c & Hkc & <-). exists (k, c). split; [done |].
      by apply elem_of_map_to_list.
Qed.

(** ** Find or create *)

(** X2: find or create, on an open session.  While an identifier is in
    the map, a [Connect] carrying it attaches to the stored connection,
    whatever the rest of its data and whatever [Start] would do, and changes
    nothing.  When the identifier is not in the map and [Start] succeeds,
    [Connect] spawns one watcher and stores a new connection under it: the
    map grows by one, and a following [Connect] with that identifier finds
    the connection.  Once the entry is deleted again, as the watcher does at
    line 189, a [Connect] with the same identifier creates a new connection. *)
Theorem Connect_finds_or_creates (s : Session) (d : restapi.ConnectionData) :
  closed s = false →
  (∀ c start, connections s !! restapi.Id d = Some c →
              Connect s d start = (Suspended (AtAttach c), s)) ∧
  (connections s !! restapi.Id d = None →
   Connect s d None
   = (Suspended (AtSend (newConnection d (juicePath s) (GetPciBusString (gpus s)))),
      registered s d) ∧
   connections (registered s d) !! restapi.Id d
   = Some (newConnection d (juicePath s) (GetPciBusString (gpus s))) ∧
   size (connections (registered s d)) = S (size (connections s)) ∧
   tasks (taskManager (registered s d))
   = tasks (taskManager s)
       ++ [(newConnection d (juicePath s) (GetPciBusString (gpus s)), CWRecv)] ∧
   (∀ d' start, restapi.Id d' = restapi.Id d →
      Connect (registered s d) d' start
      = (Suspended (AtAttach (newConnection d (juicePath s) (GetPciBusString (gpus s)))),
         registered s d))) ∧
  (∀ c, connections s !! restapi.Id d = Some c →
        Connect (set_connections (delete (restapi.Id d) (connections s)) s) d None
        = (Suspended (AtSend (newConnection d (juicePath s) (GetPciBusString (gpus s)))),
           registered (set_connections (delete (restapi.Id d) (connections s)) s) d) ∧
        tasks (taskManager
                 (registered (set_connections (delete (restapi.Id d) (connections s)) s) d))
        = tasks (taskManager s)
            ++ [(newConnection d (juicePath s) (GetPciBusString (gpus s)), CWRecv)]).
Proof.
  intros Hc. split; [| split].
  - intros c start Hd. unfold Connect. by rewrite Hc, Hd.
  - intros Hd.
    assert (Hl : connections (registered s d) !! restapi.Id d
                 = Some (newConnection d (juicePath s) (GetPciBusString (gpus s)))).
    { unfold registered, addConnection. simpl. apply lookup_insert_eq. }
    split; [unfold Connect; by rewrite Hc, Hd |].
    split; [done |].
    split; [unfold registered, addConnection; simpl; by apply map_size_insert_None |].
    split; [done |].
    intros d' start Hid. unfold Connect.
    assert (Hcl : closed (registered s d) = false) by exact Hc.
    rewrite Hcl. cbn [negb]. by rewrite Hid, Hl.
  - intros c _. split; [| done].
    unfold Connect.
    assert (Hcl : closed (set_connections (delete (restapi.Id d) (connections s)) s) = false)
      by exact Hc.
    rewrite Hcl. cbn [negb]. cbn [connections set_connections].
    by rewrite lookup_delete_eq.
Qed.

Lemma Connect_finds_or_creates_witness :
  Connect (registered (sess idle_world) sample_data)
    (restapi.mkConnectionData "c1" "7" "other") (Some (StartError "unused"))
  = (Suspended (AtAttach (newConnection sample_data "/opt/juice" "0000:01:00.0")),
     registered (sess idle_world) sample_data) ∧
  Connect (set_connections
             (delete "c1" (connections (registered (sess idle_world) sample_data)))
             (registered (sess idle_world) sample_data))
    sample_data None
  = (Suspended (AtSend (newConnection sample_data "/opt/juice" "0000:01:00.0")),
     registered
       (set_connections
          (delete "c1" (connections (registered (sess idle_world) sample_data)))
          (registered (sess idle_world) sample_data))
       sample_data).
Proof.
  split.
  - destruct (Connect_finds_or_creates (sess idle_world) sample_data eq_refl)
      as (_ & H & _).
    destruct (H eq_refl) as (_ & _ & _ & _ & H4).
    apply (H4 (restapi.mkConnectionData "c1" "7" "other")). reflexivity.
  - destruct (Connect_finds_or_creates (registered (sess idle_world) sample_data)
                sample_data eq_refl) as (_ & _ & H).
    apply (H (newConnection sample_data "/opt/juice" "0000:01:00.0")).
    vm_compute. reflexivity.
Defined.

(** ** The endpoints: who answers, who cleans up *)

(** X3: the handler of [connectSessionEp] tries to hijack the connection
    exactly when the lookup gave no error and the cast succeeded, and closes
    the hijacked connection exactly when everything up to [Connect] went
    well on a real session and [Connect] returned an error.  It writes no
    response exactly when a session was found and the connection was
    hijacked, and two responses exactly when the session was nil and the
    cast or the hijack then failed.  On a lookup error it answers 500 with
    the message, logs, and does nothing else. *)
Theorem connectSession_hijack_and_close (got : option Session * option string)
    (cast hijack : option string) (result : option error) :
  (hijacked (connectSessionEp got cast hijack result).1 = true
   ↔ got.2 = None ∧ cast = None) ∧
  (conn_closed (connectSessionEp got cast hijack result).1 = true
   ↔ got.2 = None ∧ cast = None ∧ hijack = None ∧ is_Some got.1 ∧ is_Some result) ∧
  (responses (connectSessionEp got cast hijack result).1 = 0%nat
   ↔ is_Some got.1 ∧ got.2 = None ∧ cast = None ∧ hijack = None) ∧
  (responses (connectSessionEp got cast hijack result).1 = 2%nat
   ↔ got = (None, None) ∧ (is_Some cast ∨ is_Some hijack)) ∧
  (∀ msg, got.2 = Some msg →
          connectSessionEp got cast hijack result
          = ([RespondWithString StatusInternalServerError msg; LogError], HandlerReturned)).
Proof.
  destruct got as [[s |] [m |]], cast as [c |], hijack as [h |], result as [r |];
    unfold responses, hijacked, conn_closed; simpl.
  all: rewrite ?is_Some_alt.
  all: repeat split; try done; try (intros; congruence); try tauto.
  all: try (intros (? & ? & ?); congruence).
  all: try (intros (? & ? & ? & ?); congruence).
  all: try (intros [? [? | ?]]; congruence).
  all: intros [? ?]; congruence.
Qed.

(** X4: the handler of [requestSessionEp] writes at most one response, and
    none at all exactly when the body could be read and the agent is full.
    It releases its local GPU set exactly when it does not get as far as
    [startSession], and then the agent is as it was.  It signals a session
    only when [startSession] made one and the answer could not be written. *)
Theorem requestSession_answers {RequestSession : Type}
    (startSession : Agent → RequestSession → Agent * (string + string))
    (agent : Agent) (body : RequestSession + string) (respondFails : bool) :
  (responses (requestSessionEp startSession agent body respondFails).2 ≤ 1)%nat ∧
  (responses (requestSessionEp startSession agent body respondFails).2 = 0%nat
   ↔ ∃ r, body = inl r ∧ sessions_full agent = true) ∧
  gpus_released (requestSessionEp startSession agent body respondFails).2
  = negb (passes_limit agent body) ∧
  (passes_limit agent body = false →
   (requestSessionEp startSession agent body respondFails).1 = agent ∧
   signalled (requestSessionEp startSession agent body respondFails).2 = false) ∧
  (signalled (requestSessionEp startSession agent body respondFails).2 = true
   ↔ ∃ r id, body = inl r ∧ sessions_full agent = false ∧
             (startSession agent r).2 = inl id ∧ respondFails = true).
Proof.
  unfold requestSessionEp, passes_limit, responses, gpus_released, signalled.
  destruct body as [r | msg]; simpl.
  - destruct (sessions_full agent) eqn:Hfull; simpl.
    + repeat split; try done; try lia; eauto.
      intros (? & ? & ? & ? & ?). congruence.
    + destruct (startSession agent r) as [agent' [id | msg]] eqn:Hs; simpl.
      * destruct respondFails; simpl; repeat split; try done; try lia.
        all: try (intros (? & ? & ?); congruence).
        -- intros _. exists r, id. by rewrite Hs.
        -- intros (? & ? & ? & ? & ? & ?). congruence.
      * repeat split; try done; try lia.
        -- intros (? & ? & ?). congruence.
        -- intros (r' & id & Hb & _ & Hst & _). simplify_eq. rewrite Hs in Hst. done.
  - repeat split; try done; try lia.
    + intros (? & ? & ?). congruence.
    + intros (? & ? & ? & ?). congruence.
Qed.

(** ** Cancellation, triggers and the clock *)

Lemma Connect_cancelled s d start r s' :
  Connect s d start = (r, s') →
  cancelled (taskManager s') = cancelled (taskManager s).
Proof.
  unfold Connect, addConnection. intros H.
  destruct (closed s); simpl in H; [by simplify_eq |].
  destruct (connections s !! restapi.Id d); [by simplify_eq |].
  destruct start; by simplify_eq.
Qed.

Lemma Cancel_cancelled s :
  cancelled (taskManager (Cancel s)) = cancelled (taskManager s) || negb (closed s).
Proof.
  unfold Cancel. destruct (closed s) eqn:Hc; simpl; [by rewrite orb_false_r |].
  by rewrite orb_true_r.
Qed.

Lemma cancelled_step l w w' :
  step l w = Some w' →
  cancelled (taskManager (sess w)) = true → cancelled (taskManager (sess w')) = true.
Proof.
  intros Hstep Hc.
  destruct w as [s pd h wp tk tm nw pn lg].
  unfold step, watcher_step, ticker_receives, on_connectionsChanged, locked in Hstep.
  simpl in Hstep.
  destruct l; simpl in Hstep; step_inv Hstep; simplify_eq/=; try done.
  all: rewrite ?Cancel_cancelled, ?Hc; try done.
  all: match goal with
       | H : Connect _ _ _ = _ |- _ => apply Connect_cancelled in H; congruence
       end.
Qed.

Lemma cancelled_before_set id persistent r0 l w w' :
  wf id persistent r0 w →
  ((2 ≤ phase (watcher w))%nat → cancelled (taskManager (sess w)) = true) →
  step l w = Some w' →
  (2 ≤ phase (watcher w'))%nat → cancelled (taskManager (sess w')) = true.
Proof.
  intros Hwf Hinv Hstep Hph.
  destruct (decide (2 ≤ phase (watcher w))%nat) as [Hge | Hlt].
  { eapply cancelled_step; [done |]. by apply Hinv. }
  clear Hinv.
  destruct w as [s pd h wp tk tm nw pn lg].
  unfold step, watcher_step, ticker_receives, on_connectionsChanged, locked in Hstep.
  simpl in Hstep.
  destruct l; simpl in Hstep; step_inv Hstep; simplify_eq/=; try lia; try done.
  destruct Hwf as [_ _ _ _ _ Hfl _ _ _ _ _]; simpl in *.
  rewrite Cancel_cancelled, Hfl. simpl. apply orb_true_r.
Qed.

Lemma now_step l w w' : step l w = Some w' → now w ≤ now w'.
Proof.
  intros Hstep.
  destruct w as [s pd h wp tk tm nw pn lg].
  unfold step, watcher_step, ticker_receives, on_connectionsChanged, locked in Hstep.
  simpl in Hstep.
  destruct l; simpl in Hstep; step_inv Hstep; simplify_eq/=; try lia.
  match goal with H : bool_decide _ = true |- _ => apply bool_decide_eq_true in H end.
  lia.
Qed.

Lemma now_run ls w w' : run ls w = Some w' → now w ≤ now w'.
Proof.
  revert w. induction ls as [| l ls IH]; intros w Hrun; simpl in Hrun.
  - simplify_eq. lia.
  - destruct (step l w) as [w1 |] eqn:Hstep; [| done].
    apply now_step in Hstep. apply IH in Hrun. lia.
Qed.

Lemma timer_window_step T l w w' :
  timer_window T w → step l w = Some w' → timer_window T w'.
Proof.
  intros [Hdue Hnow] Hstep.
  destruct w as [s pd h wp tk tm nw pn lg].
  unfold step, watcher_step, ticker_receives, on_connectionsChanged, locked in Hstep.
  simpl in Hstep. unfold timer_window in *. simpl in *.
  destruct l; simpl in Hstep; step_inv Hstep; simplify_eq/=; try done.
  all: try (split; [intros due ?; simplify_eq; unfold period in *; try lia | done]).
  - match goal with H : bool_decide _ = true |- _ => apply bool_decide_eq_true in H end.
    split; [done | lia].
  - specialize (Hdue _ eq_refl). lia.
Qed.

Lemma tick_after_window T w w' :
  timer_window T w → step LTick w = Some w' → T ≤ now w.
Proof.
  intros [Hdue _] Hstep. unfold step in Hstep. step_inv Hstep.
  match goal with H : bool_decide _ = true |- _ => apply bool_decide_eq_true in H end.
  specialize (Hdue _ eq_refl). lia.
Qed.

Lemma undisturbed_step l w w' :
  undisturbed w → is_trigger l = false →
  step l w = Some w' → undisturbed w'.
Proof.
  intros (Hw & Hp & Hc & Ht) Htr Hstep.
  destruct w as [s pd h wp tk tm nw pn lg].
  unfold step, watcher_step, ticker_receives, on_connectionsChanged, locked in Hstep.
  simpl in Hstep. unfold undisturbed in *. simpl in *.
  destruct l; simpl in Hstep; try done; step_inv Hstep; simplify_eq/=; try done.
  all: try match goal with
       | H : Connect _ _ _ = _ |- _ => apply Connect_cancelled in H
       end.
  all: repeat split; try done; try congruence.
Qed.

Lemma undisturbed_started id version persistent juicePath g t0 :
  undisturbed (started id version persistent juicePath g t0).
Proof. repeat split; try done. simpl. by destruct persistent. Qed.

Lemma undisturbed_open id persistent r0 w :
  wf id persistent r0 w → undisturbed w →
  closed (sess w) = false ∧ releases (gpus (sess w)) = r0 ∧
  filter is_teardown (log w) = [].
Proof.
  intros [_ _ _ _ _ Hfl _ _ _ Hr Hlg] (Hw & _). rewrite Hw in *. simpl in *.
  repeat split; try done. rewrite Hr. simpl. lia.
Qed.

Lemma tick_needs_ticker id r0 w : wf id true r0 w → step LTick w = None.
Proof.
  intros [_ _ Htk Hal _ _ _ _ _ _ _]. unfold step. rewrite Hal.
  by destruct (ticker w).
Qed.

Lemma undisturbed_run id persistent r0 (ls : list label) (w w' : World) :
  wf id persistent r0 w → undisturbed w →
  forallb (λ l, negb (if persistent then is_explicit_trigger l else is_trigger l)) ls = true →
  run ls w = Some w' → undisturbed w'.
Proof.
  revert w. induction ls as [| l ls IH]; intros w Hwf Hu Hall Hrun; simpl in *.
  - by simplify_eq.
  - destruct (step l w) as [w1 |] eqn:Hstep; [| done].
    apply andb_prop in Hall as [Hl Hall]. apply negb_true_iff in Hl.
    apply (IH w1); try done; [by eapply wf_step |].
    eapply undisturbed_step; [done | | done].
    destruct persistent; [| done].
    destruct l; try done. by rewrite (tick_needs_ticker _ _ _ Hwf) in Hstep.
Qed.

(** X5: a session stops only when asked.  Along a run in which the parent
    scope is not cancelled, nobody calls [Cancel] and the idle timer does
    not tick, the closing watcher stays at its select, the task manager is
    not cancelled, the flag stays open and nothing is released or reported,
    however much time passes.  For a persistent session the idle timer never
    ticks, so there the first two conditions are enough. *)
Theorem session_stops_only_on_trigger id version persistent juicePath g t0
    (ls : list label) (w : World) :
  run ls (started id version persistent juicePath g t0) = Some w →
  forallb (λ l, negb (if persistent then is_explicit_trigger l else is_trigger l)) ls = true →
  undisturbed w ∧
  closed (sess w) = false ∧
  releases (gpus (sess w)) = releases g ∧
  filter is_teardown (log w) = [].
Proof.
  intros Hrun Hall.
  pose proof (wf_run _ _ _ _ _ _ (wf_start id version persistent juicePath g t0) Hrun) as Hwf.
  pose proof (undisturbed_run _ _ _ _ _ _ (wf_start id version persistent juicePath g t0)
                (undisturbed_started _ _ _ _ _ _) Hall Hrun) as Hu.
  split; [done |]. by eapply undisturbed_open.
Qed.

Lemma session_stops_only_on_trigger_witness :
  closed (sess (after [LConnect sample_data None; LTime 86400000000000; LExit 0 0]
                 persistent_world)) = false ∧
  releases (gpus (sess (after [LConnect sample_data None; LTime 86400000000000; LExit 0 0]
                          persistent_world))) = 0%nat.
Proof.
  destruct (session_stops_only_on_trigger "s1" "1.0" true "/opt/juice" sample_gpus 0
              [LConnect sample_data None; LTime 86400000000000; LExit 0 0]
              (after [LConnect sample_data None; LTime 86400000000000; LExit 0 0]
                 persistent_world)) as (_ & H1 & H2 & _).
  - vm_compute. reflexivity.
  - vm_compute. reflexivity.
  - split; [exact H1 | exact H2].
Defined.

Lemma first_period_run T (ls : list label) (w w' : World) :
  undisturbed w → timer_window T w →
  forallb (λ l, negb (is_explicit_trigger l)) ls = true →
  run ls w = Some w' → now w' < T → undisturbed w'.
Proof.
  revert w. induction ls as [| l ls IH]; intros w Hu Hw Hall Hrun Hnow; simpl in *.
  - by simplify_eq.
  - destruct (step l w) as [w1 |] eqn:Hstep; [| done].
    apply andb_prop in Hall as [Hl Hall]. apply negb_true_iff in Hl.
    apply (IH w1); try done; [| by eapply timer_window_step].
    eapply undisturbed_step; [done | | done].
    destruct l; try done.
    pose proof (tick_after_window _ _ _ Hw Hstep) as Htick.
    pose proof (now_step _ _ _ Hstep). pose proof (now_run _ _ _ Hrun). lia.
Qed.

(** X6: no idle timeout in the first 30 seconds.  Along a run in which the
    parent scope is not cancelled and nobody calls [Cancel], as long as the
    clock has not reached 30 seconds after [Run] the session has not been
    asked to stop: the flag is open and nothing has been released. *)
Theorem no_timeout_in_first_period id version persistent juicePath g t0
    (ls : list label) (w : World) :
  run ls (started id version persistent juicePath g t0) = Some w →
  forallb (λ l, negb (is_explicit_trigger l)) ls = true →
  now w < t0 + 30000000000 →
  undisturbed w ∧
  closed (sess w) = false ∧
  releases (gpus (sess w)) = releases g.
Proof.
  intros Hrun Hall Hnow.
  pose proof (wf_run _ _ _ _ _ _ (wf_start id version persistent juicePath g t0) Hrun) as Hwf.
  assert (Hw : timer_window (t0 + period) (started id version persistent juicePath g t0)).
  { split; simpl; [| lia]. destruct persistent; simpl; intros due ?; simplify_eq. lia. }
  pose proof (first_period_run _ _ _ _ (undisturbed_started _ _ _ _ _ _) Hw Hall Hrun Hnow)
    as Hu.
  split; [done |]. destruct (undisturbed_open _ _ _ _ Hwf Hu) as (? & ? & _). done.
Qed.

Lemma no_timeout_in_first_period_witness :
  closed (sess (after [LTime 29999999999] idle_world)) = false ∧
  step LTick (after [LTime 29999999999] idle_world) = None.
Proof.
  split; [| vm_compute; reflexivity].
  apply (no_timeout_in_first_period "s1" "1.0" false "/opt/juice" sample_gpus 0
           [LTime 29999999999] (after [LTime 29999999999] idle_world)).
  - vm_compute. reflexivity.
  - vm_compute. reflexivity.
  - vm_compute. reflexivity.
Defined.

Lemma step_time w d : panicked w = false → 0 ≤ d → step (LTime d) w = Some (set_now (now w + d) w).
Proof. intros Hp Hd. unfold step. rewrite Hp. by rewrite bool_decide_true. Qed.

Lemma step_tick w due :
  panicked w = false → ticker w = Some TSelect → timer w = Some due → due ≤ now w →
  step LTick w = Some (set_timer (Some (due + period)) (set_ticker TCancel w)).
Proof. intros Hp Ht Hd Hn. unfold step. rewrite Hp, Ht, Hd. by rewrite bool_decide_true. Qed.

Ltac world_cbv :=
  cbv [run step watcher_step ticker_receives on_connectionsChanged locked
       upd_sess set_parentDone set_holder set_watcher set_ticker set_timer set_now
       set_panicked emit set_task Cancel tmCancel GoFn set_closed set_connections
       set_taskManager set_gpus close_connectionsChanged close_sessionClosing Release
       all_done task_done forallb started Run newSession negb app
       sess parentDone holder watcher ticker timer now panicked log
       Id Version Persistent juicePath gpus closed connections connectionsChanged
       sessionClosing taskManager cancelled tasks chanClosed
       pciBusString gpuList releases teardown_order].

(** X7: the idle timeout, end to end.  In a non-persistent session that
    nobody connects to, once 30 seconds or more have passed the ticker can
    take its tick and call [Cancel], and the closing watcher can then run
    its whole teardown: the flag is set, the reservation is released exactly
    once, and the log is the four teardown events in order. *)
Theorem idle_session_times_out id version path g t0 (d : Z) :
  30000000000 ≤ d →
  ∃ w, run (timeout_run d) (started id version false path g t0) = Some w ∧
       watcher w = WDone ∧
       closed (sess w) = true ∧
       cancelled (taskManager (sess w)) = true ∧
       releases (gpus (sess w)) = S (releases g) ∧
       log w = teardown_order id.
Proof.
  intros Hd. eexists. split.
  - unfold timeout_run. cbn [run].
    rewrite step_time; [| reflexivity | lia].
    erewrite step_tick; [| reflexivity | reflexivity | reflexivity |].
    2:{ cbn. unfold period. lia. }
    world_cbv. reflexivity.
  - world_cbv. done.
Qed.

Lemma idle_session_times_out_witness :
  ∃ w, run (timeout_run 30000000000) idle_world = Some w ∧
       watcher w = WDone ∧
       closed (sess w) = true ∧
       cancelled (taskManager (sess w)) = true ∧
       releases (gpus (sess w)) = 1%nat ∧
       log w = teardown_order "s1".
Proof.
  apply (idle_session_times_out "s1" "1.0" "/opt/juice" sample_gpus 0 30000000000).
  lia.
Defined.

(** ** After the flag is set *)

Lemma Connect_closed s d start :
  closed s = true → Connect s d start = (Returned (Some ErrClosed), s).
Proof. intros Hc. unfold Connect. by rewrite Hc. Qed.

(** X8: nothing is added to a closed session.  In a world a started
    session can reach with the flag set, no call of [Connect] holds the
    mutex, and whatever step is taken next, none holds it afterwards, no
    watcher has been spawned, and the connection map has at most lost
    entries. *)
Theorem closed_session_only_shrinks id version persistent juicePath g t0
    (l : label) (w w' : World) :
  reachable (started id version persistent juicePath g t0) w →
  closed (sess w) = true →
  step l w = Some w' →
  holder w = None ∧ holder w' = None ∧
  length (tasks (taskManager (sess w'))) = length (tasks (taskManager (sess w))) ∧
  connections (sess w') ⊆ connections (sess w).
Proof.
  intros Hreach Hc Hstep.
  pose proof (wf_reachable _ _ _ _ _ _ _ Hreach) as Hwf.
  assert (Hh : holder w = None).
  { destruct Hwf as [_ _ _ _ Hlk _ _ _ _ _ _]. unfold locked in Hlk.
    destruct (holder w); [| done]. rewrite Hlk in Hc; done. }
  split; [done |].
  destruct w as [s pd h wp tk tm nw pn lg]. simpl in *. subst h.
  unfold step, watcher_step, ticker_receives, on_connectionsChanged, locked in Hstep.
  simpl in Hstep.
  destruct l; simpl in Hstep; try rewrite (Connect_closed _ _ _ Hc) in Hstep;
    step_inv Hstep; simplify_eq/=; frame; rewrite ?length_insert; try done.
  split; [done |]. split; [done |]. apply delete_subseteq.
Qed.

Lemma closed_session_only_shrinks_witness :
  connections (sess (after [LExit 0 0]
                       (after [LConnect sample_data None; LSendConnect; LTickerChanged;
                               LCreated; LAttach None; LCancel; LWatcherOwn; LWatcher]
                          idle_world)))
  ⊆ connections (sess (after [LConnect sample_data None; LSendConnect; LTickerChanged;
                              LCreated; LAttach None; LCancel; LWatcherOwn; LWatcher]
                         idle_world)).
Proof.
  eapply (closed_session_only_shrinks "s1" "1.0" false "/opt/juice" sample_gpus 0
            (LExit 0 0)
            (after [LConnect sample_data None; LSendConnect; LTickerChanged;
                    LCreated; LAttach None; LCancel; LWatcherOwn; LWatcher] idle_world)).
  - exists [LConnect sample_data None; LSendConnect; LTickerChanged;
            LCreated; LAttach None; LCancel; LWatcherOwn; LWatcher].
    vm_compute. reflexivity.
  - vm_compute. reflexivity.
  - vm_compute. reflexivity.
Defined.

(** X9: no send on a closed channel.  In every world a started session
    can reach nothing has panicked, and neither the send of line 198 nor
    that of line 190 can find [connectionsChanged] closed: when that channel
    is closed the flag is set, no call of [Connect] holds the mutex and
    every watcher has returned.  [sessionClosing] is closed only after
    [connectionsChanged]. *)
Theorem sends_never_hit_closed_channel id version persistent juicePath g t0 (w : World) :
  reachable (started id version persistent juicePath g t0) w →
  panicked w = false ∧
  step LPanicConnect w = None ∧
  (∀ i, step (LPanicWatcher i) w = None) ∧
  (chanClosed (connectionsChanged (sess w)) = true →
   closed (sess w) = true ∧ holder w = None ∧ all_done (taskManager (sess w)) = true) ∧
  (chanClosed (sessionClosing (sess w)) = true →
   chanClosed (connectionsChanged (sess w)) = true).
Proof.
  intros Hreach.
  destruct (wf_reachable _ _ _ _ _ _ _ Hreach) as [_ _ _ Hal Hlk Hfl Hj Hch Hcl _ _].
  assert (Hclosed : chanClosed (connectionsChanged (sess w)) = true →
            closed (sess w) = true ∧ holder w = None ∧
            all_done (taskManager (sess w)) = true).
  { intros Hc. rewrite Hch in Hc. apply bool_decide_eq_true in Hc.
    assert (Hf : closed (sess w) = true).
    { rewrite Hfl. apply bool_decide_eq_true. lia. }
    split; [done |]. split; [| apply Hj; lia].
    unfold locked in Hlk. destruct (holder w); [| done]. rewrite Hlk in Hf; done. }
  split; [done |]. split; [| split; [| split; [done |]]].
  - unfold step. rewrite Hal. destruct (holder w) as [[] |] eqn:Hh; try done.
    destruct (chanClosed (connectionsChanged (sess w))) eqn:Hc; [| done].
    destruct (Hclosed eq_refl) as (_ & ? & _). congruence.
  - intros i. unfold step. rewrite Hal.
    destruct (tasks (taskManager (sess w)) !! i) as [[c []] |] eqn:Hi; try done.
    destruct (chanClosed (connectionsChanged (sess w))) eqn:Hc; [| done].
    destruct (Hclosed eq_refl) as (_ & _ & Hd).
    by apply (all_done_lookup _ _ _ _ Hd) in Hi.
  - intros Hc. rewrite Hcl in Hc. apply bool_decide_eq_true in Hc.
    rewrite Hch. apply bool_decide_eq_true. lia.
Qed.

Lemma sends_never_hit_closed_channel_witness :
  panicked (after full_run idle_world) = false ∧
  step LPanicConnect (after full_run idle_world) = None.
Proof.
  destruct (sends_never_hit_closed_channel "s1" "1.0" false "/opt/juice" sample_gpus 0
              (after full_run idle_world)) as (H1 & H2 & _).
  - exists full_run. vm_compute. reflexivity.
  - split; [exact H1 | exact H2].
Defined.

(** X10: asking to stop comes first.  In every world a started session can
    reach, once the closing watcher stands at line 98 or beyond, and so
    whenever the flag is set, the task manager has been cancelled; and a
    task manager that has been cancelled stays cancelled. *)
Theorem cancellation_precedes_close id version persistent juicePath g t0 (w : World) :
  reachable (started id version persistent juicePath g t0) w →
  ((2 ≤ phase (watcher w))%nat → cancelled (taskManager (sess w)) = true) ∧
  (closed (sess w) = true → cancelled (taskManager (sess w)) = true) ∧
  (∀ l w', step l w = Some w' →
           cancelled (taskManager (sess w)) = true →
           cancelled (taskManager (sess w')) = true).
Proof.
  intros [ls Hrun].
  assert (Hinv : ∀ ls w0 w1,
            wf id persistent (releases g) w0 →
            ((2 ≤ phase (watcher w0))%nat → cancelled (taskManager (sess w0)) = true) →
            run ls w0 = Some w1 →
            wf id persistent (releases g) w1 ∧
            ((2 ≤ phase (watcher w1))%nat → cancelled (taskManager (sess w1)) = true)).
  { clear. intros ls. induction ls as [| l ls IH]; intros w0 w1 Hwf H0 Hrun; simpl in Hrun.
    - by simplify_eq.
    - destruct (step l w0) as [w2 |] eqn:Hstep; [| done].
      eapply (IH w2); [by eapply wf_step | | done].
      by eapply cancelled_before_set. }
  destruct (Hinv ls _ w (wf_start id version persistent juicePath g t0)) as [Hwf Hc];
    [simpl; lia | done |].
  split; [done |]. split.
  - intros Hcl. apply Hc. destruct Hwf as [_ _ _ _ _ Hfl _ _ _ _ _].
    rewrite Hfl in Hcl. apply bool_decide_eq_true in Hcl. lia.
  - intros l w' Hstep. by apply (cancelled_step l).
Qed.

Lemma cancellation_precedes_close_witness :
  cancelled (taskManager (sess (after [LParentCancel; LWatcherParent; LWatcher; LWatcher]
                                  persistent_world))) = true.
Proof.
  destruct (cancellation_precedes_close "s1" "1.0" true "/opt/juice" sample_gpus 0
              (after [LParentCancel; LWatcherParent; LWatcher; LWatcher] persistent_world))
    as (_ & H & _).
  - exists [LParentCancel; LWatcherParent; LWatcher; LWatcher]. vm_compute. reflexivity.
  - apply H. vm_compute. reflexivity.
Defined.

(** ** Connections, watchers and what is reported *)

Lemma filter_created_snoc (lg : list event) (e : event) :
  filter is_connection_created (lg ++ [e])
  = filter is_connection_created lg ++ (if is_connection_created e then [e] else []).
Proof. rewrite filter_app. f_equal. by destruct e. Qed.

Lemma filter_closed_snoc (lg : list event) (e : event) :
  filter is_connection_closed (lg ++ [e])
  = filter is_connection_closed lg ++ (if is_connection_closed e then [e] else []).
Proof. rewrite filter_app. f_equal. by destruct e. Qed.

Lemma length_filter_done_insert (l : list (Connection * cwpc)) (i : nat)
    (x y : Connection * cwpc) :
  l !! i = Some y → task_done y = false →
  length (filter task_done (<[i:=x]> l))
  = (length (filter task_done l) + if task_done x then 1 else 0)%nat.
Proof.
  revert i. induction l as [| a l IH]; intros [| i] Hi Hy; simplify_eq/=.
  - rewrite !filter_cons, Hy. simpl. destruct (task_done x); simpl; lia.
  - rewrite !filter_cons. destruct (task_done a); simpl; rewrite (IH i) by done; lia.
Qed.

Lemma length_filter_done_snoc (l : list (Connection * cwpc)) (x : Connection * cwpc) :
  task_done x = false →
  length (filter task_done (l ++ [x])) = length (filter task_done l).
Proof.
  intros Hx. rewrite filter_app, filter_cons, Hx. simpl.
  by rewrite filter_nil, app_nil_r.
Qed.

Lemma accounted_step l w w' :
  accounted w → step l w = Some w' → accounted w'.
Proof.
  intros [Hcl Hcr] Hstep.
  destruct w as [s pd h wp tk tm nw pn lg].
  unfold step, watcher_step, ticker_receives, on_connectionsChanged, locked in Hstep.
  simpl in Hstep. unfold accounted, returned, unreported in *. simpl in *.
  destruct l; simpl in Hstep; step_inv Hstep; simplify_eq/=; frame;
    rewrite ?filter_created_snoc, ?filter_closed_snoc, ?length_app, ?length_insert; simpl;
    rewrite ?Nat.add_0_r; try done.
  all: try match goal with
       | H : Connect _ _ _ = _ |- _ =>
           apply Connect_cases in H;
           destruct H as [[-> [? ?]] | [[-> (? & ? & Hf)] | (? & ? & Hn & Hts & Hcs)]];
           simplify_eq
       end; try done.
  all: try (erewrite length_filter_done_insert by done; simpl).
  all: try rewrite Hts, length_filter_done_snoc, length_app by done; simpl.
  all: try (destruct h; [done |]).
  all: lia.
Qed.

Lemma Cancel_juicePath s : juicePath (Cancel s) = juicePath s.
Proof. unfold Cancel. by destruct (closed s) eqn:E. Qed.

Lemma Connect_full s d start r s' :
  Connect s d start = (r, s') →
  (s' = s ∧ ((∃ e, r = Returned (Some e)) ∨
             ∃ c, r = Suspended (AtAttach c) ∧ connections s !! restapi.Id d = Some c)) ∨
  (r = Suspended (AtSend (newConnection d (juicePath s) (GetPciBusString (gpus s)))) ∧
   s' = registered s d ∧ connections s !! restapi.Id d = None).
Proof.
  unfold Connect, registered, addConnection. intros H.
  destruct (closed s) eqn:Hc; simpl in H; [simplify_eq; left; eauto |].
  destruct (connections s !! restapi.Id d) eqn:Hd; [simplify_eq; left; eauto |].
  destruct start; simplify_eq; [left; eauto |]. by right.
Qed.

Lemma bound_step l w w' : bound w → step l w = Some w' → bound w'.
Proof.
  intros (Hm & Ht & Hh) Hstep.
  destruct w as [s pd h wp tk tm nw pn lg].
  unfold step, watcher_step, ticker_receives, on_connectionsChanged, locked in Hstep.
  simpl in Hstep. unfold bound, made_for in *. simpl in *.
  destruct l; simpl in Hstep; step_inv Hstep; simplify_eq/=; try done.
  all: try match goal with
       | H : Connect _ _ _ = _ |- _ =>
           apply Connect_full in H;
           destruct H as [[-> [[? ?] | (? & ? & Hf)]] | (? & -> & Hn)];
           simplify_eq
       end; try done.
  all: rewrite ?Cancel_connections, ?Cancel_tasks, ?Cancel_gpus, ?Cancel_juicePath; try done.
  all: split; [| split]; simpl.
  all: try (intros c0 [? | [? | ?]]; simplify_eq; eauto; fail).
  all: try done.
  - intros c [? | [? | ?]]; simplify_eq. by eapply Hm.
  - intros k c Hk. apply lookup_insert_Some in Hk as [[<- <-] | [_ Hk]]; [done |].
    by apply Hm.
  - intros i c p Hi. apply lookup_app_Some in Hi as [Hi | [_ Hi]]; [by eapply Ht |].
    apply list_lookup_singleton_Some in Hi as [_ Hi]. by simplify_eq.
  - intros k c0 Hk. apply lookup_delete_Some in Hk as [_ Hk]. by apply Hm.
  - intros i0 c0 p Hi. destruct (decide (i = i0)) as [-> | Hne].
    + rewrite list_lookup_insert_eq in Hi by (by eapply lookup_lt_Some).
      simplify_eq. by eapply Ht.
    + rewrite list_lookup_insert_ne in Hi by done. by eapply Ht.
  - intros i0 c0 p Hi. destruct (decide (i = i0)) as [-> | Hne].
    + rewrite list_lookup_insert_eq in Hi by (by eapply lookup_lt_Some).
      simplify_eq. by eapply Ht.
    + rewrite list_lookup_insert_ne in Hi by done. by eapply Ht.
  - intros i0 c0 p Hi. destruct (decide (i = i0)) as [-> | Hne].
    + rewrite list_lookup_insert_eq in Hi by (by eapply lookup_lt_Some).
      simplify_eq. by eapply Ht.
    + rewrite list_lookup_insert_ne in Hi by done. by eapply Ht.
Qed.

Lemma snapshot_ids (m : gmap string Connection) :
  (∀ k c, m !! k = Some c → connId c = k) →
  restapi.Id <$> Foreach_append m = (map_to_list m).*1.
Proof.
  intros Hk. unfold Foreach_append. rewrite <- list_fmap_compose.
  apply list_fmap_ext. intros i [k c] Hi. simpl.
  apply list_elem_of_lookup_2, elem_of_map_to_list in Hi. by apply Hk.
Qed.

Lemma accounted_run (ls : list label) (w w' : World) :
  accounted w → run ls w = Some w' → accounted w'.
Proof.
  revert w. induction ls as [| l ls IH]; intros w Ha Hrun; simpl in Hrun.
  - by simplify_eq.
  - destruct (step l w) as [w1 |] eqn:Hstep; [| done].
    eapply IH; [| done]. by eapply accounted_step.
Qed.

Lemma bound_run (ls : list label) (w w' : World) :
  bound w → run ls w = Some w' → bound w'.
Proof.
  revert w. induction ls as [| l ls IH]; intros w Hb Hrun; simpl in Hrun.
  - by simplify_eq.
  - destruct (step l w) as [w1 |] eqn:Hstep; [| done].
    eapply IH; [| done]. by eapply bound_step.
Qed.

(** X11: no connection event is reported twice or out of nowhere.  In
    every world a started session can reach, the number of
    [ConnectionClosed] events is the number of watchers that have returned:
    a watcher reports once, on its way out, and nothing else reports.  The
    number of [ConnectionCreated] events, plus one while a call of [Connect]
    has stored its connection and not yet reported it, never exceeds the
    number of watchers spawned; neither does the number of
    [ConnectionClosed] events. *)
Theorem connection_events_accounted id version persistent juicePath g t0 (w : World) :
  reachable (started id version persistent juicePath g t0) w →
  length (filter is_connection_closed (log w)) = returned (sess w) ∧
  (length (filter is_connection_created (log w)) + unreported w
   ≤ length (tasks (taskManager (sess w))))%nat ∧
  (length (filter is_connection_closed (log w))
   ≤ length (tasks (taskManager (sess w))))%nat.
Proof.
  intros [ls Hrun].
  assert (Ha : accounted w).
  { eapply accounted_run; [| done]. split; [done | apply le_n]. }
  destruct Ha as [H1 H2]. split; [done |]. split; [done |].
  rewrite H1. unfold returned. apply length_filter.
Qed.

Lemma connection_events_accounted_witness :
  length (filter is_connection_closed (log (after served_run idle_world))) = 1%nat ∧
  length (filter is_connection_created (log (after served_run idle_world))) = 1%nat.
Proof.
  destruct (connection_events_accounted "s1" "1.0" false "/opt/juice" sample_gpus 0
              (after served_run idle_world)) as (H1 & H2 & _).
  - exists served_run. vm_compute. reflexivity.
  - split.
    + rewrite H1. vm_compute. reflexivity.
    + vm_compute. reflexivity.
Defined.

(** X12: connections belong to their session.  In every world a started
    session can reach, every connection in the map is stored under its own
    identifier, and every connection in the map, in a watcher or in a call
    of [Connect] was made with the session's juice path and the PCI bus
    string of its GPUs.  The snapshot of the read accessor therefore never
    lists an identifier twice. *)
Theorem connections_belong_to_session id version persistent path g t0 (w : World) :
  reachable (started id version persistent path g t0) w →
  juicePath (sess w) = path ∧
  pciBusString (gpus (sess w)) = pciBusString g ∧
  bound w ∧
  NoDup (restapi.Id <$> infoConnections (SessionSnapshot (sess w))).
Proof.
  intros [ls Hrun].
  assert (Hb : bound w).
  { eapply bound_run; [| done]. split; [| split]; simpl; try done.
    intros c [? | [? | ?]]; done. }
  assert (Hf : ∀ ls w0 w1, run ls w0 = Some w1 →
            juicePath (sess w1) = juicePath (sess w0) ∧
            pciBusString (gpus (sess w1)) = pciBusString (gpus (sess w0))).
  { clear. intros ls. induction ls as [| l ls IH]; intros w0 w1 Hrun; simpl in Hrun.
    - by simplify_eq.
    - destruct (step l w0) as [w2 |] eqn:Hstep; [| done].
      destruct (IH _ _ Hrun) as [-> ->]. clear IH Hrun.
      destruct w0 as [s pd h wp tk tm nw pn lg].
      unfold step, watcher_step, ticker_receives, on_connectionsChanged, locked in Hstep.
      simpl in Hstep.
      destruct l; simpl in Hstep; step_inv Hstep; simplify_eq/=;
        rewrite ?Cancel_gpus, ?Cancel_juicePath; try done.
      all: match goal with
           | H : Connect _ _ _ = _ |- _ =>
               apply Connect_full in H;
               destruct H as [[-> _] | (_ & -> & _)]; done
           end. }
  destruct (Hf _ _ _ Hrun) as [Hj Hp]. split; [done |]. split; [done |].
  split; [done |].
  unfold SessionSnapshot. destruct (closed (sess w)); simpl; [apply NoDup_nil_2 |].
  rewrite snapshot_ids; [apply NoDup_fst_map_to_list |].
  intros k c Hk. by apply Hb in Hk as [? _].
Qed.

Lemma connections_belong_to_session_witness :
  NoDup (restapi.Id <$> infoConnections
           (SessionSnapshot (sess (after [LConnect sample_data None] idle_world)))).
Proof.
  apply (connections_belong_to_session "s1" "1.0" false "/opt/juice" sample_gpus 0
           (after [LConnect sample_data None] idle_world)).
  exists [LConnect sample_data None]. vm_compute. reflexivity.
Defined.
